(** * Voice-agent console: configuration panel and voice session controller

    A shallow embedding of the TypeScript sources

    - [components/AgentConfig.tsx] (the zod schema [agentSchema] and the
      handlers [addOrUpdateAgent], [editAgent], [cancelEdit], [removeAgent]),
    - [components/VoiceAgent.tsx] (the handlers [requestMicrophoneAccess],
      [startConversation], [stopConversation], the SDK callbacks and the
      unmount cleanup),
    - [pages/Index.tsx] ([loadAgents] and the grid of agent cards),

    together with the properties of the specification that concern them.

    Conventions.  A JavaScript string is the list of its UTF-16 code units.
    An [async] handler is a finite tree of synchronous actions and [await]
    points; running it against an environment that settles every awaited
    promise yields the trace of what the handler did, in program order. *)

From stdpp Require Import base numbers list strings gmap.

Set Default Proof Using "Type".
Open Scope N_scope.

(** ** JavaScript strings *)

Module JS.

(** A string value: its UTF-16 code units, in order.  [length] is the
    JavaScript [.length]. *)
Abbreviation jsstring := (list N).

(** A source literal. *)
Definition js (s : string) : jsstring :=
  map Ascii.N_of_ascii (String.list_ascii_of_string s).

(** ECMAScript [WhiteSpace] and [LineTerminator] code points, the ones
    [String.prototype.trim] strips: TAB, LF, VT, FF, CR, SP, NBSP,
    U+1680, U+2000..U+200A, U+2028, U+2029, U+202F, U+205F, U+3000 and
    U+FEFF. *)
Definition isWhiteSpace (c : N) : bool :=
  (9 <=? c) && (c <=? 13)
  || (c =? 32) || (c =? 160) || (c =? 5760)
  || (8192 <=? c) && (c <=? 8202)
  || (c =? 8232) || (c =? 8233) || (c =? 8239) || (c =? 8287)
  || (c =? 12288) || (c =? 65279).

Fixpoint trimStart (s : jsstring) : jsstring :=
  match s with
  | c :: r => if isWhiteSpace c then trimStart r else s
  | [] => []
  end.

Fixpoint trimEnd (s : jsstring) : jsstring :=
  match s with
  | c :: r =>
      match trimEnd r with
      | [] => if isWhiteSpace c then [] else [c]
      | r' => c :: r'
      end
  | [] => []
  end.

(** [s.trim()] *)
Definition trim (s : jsstring) : jsstring := trimEnd (trimStart s).

(** Truthiness of a string: every string but the empty one. *)
Definition truthy (s : jsstring) : bool :=
  match s with [] => false | _ => true end.

(** [s || undefined], [s || null]: the string when truthy. *)
Definition orNull (s : jsstring) : option jsstring :=
  if truthy s then Some s else None.

(** [v || null] for a value that is a string or undefined. *)
Definition optOrNull (v : option jsstring) : option jsstring :=
  match v with Some s => orNull s | None => None end.

(** [v || ""] for a value that is a string, null or undefined. *)
Definition orEmpty (v : option jsstring) : jsstring :=
  match v with Some s => if truthy s then s else [] | None => [] end.

(** The string starts, respectively ends, with a white-space unit. *)
Definition startsWithSpace (s : jsstring) : bool :=
  match s with c :: _ => isWhiteSpace c | [] => false end.

Definition endsWithSpace (s : jsstring) : bool :=
  match last s with Some c => isWhiteSpace c | None => false end.

End JS.

Import JS.

(** ** The part of zod the schema uses

    [ZodString._parse] walks the checks of the schema in the order in which
    they were chained.  A failing [min], [max] or [regex] adds an issue and
    parsing goes on; [trim] replaces the data by its trimmed form for the
    checks that follow and for the output. *)

Module Zod.

Record ZodIssue := { path : jsstring; message : jsstring }.

Inductive ZodStringCheck :=
| check_trim
| check_min (value : nat) (msg : jsstring)
| check_max (value : nat) (msg : jsstring)
| check_regex (test : jsstring → bool) (msg : jsstring).

(** The loop over [this._def.checks]; [issues] is the shared issue list of
    the parse context, to which [addIssueToContext] appends. *)
Fixpoint runChecks (key : jsstring) (checks : list ZodStringCheck)
    (data : jsstring) (issues : list ZodIssue) : jsstring * list ZodIssue :=
  match checks with
  | [] => (data, issues)
  | check_trim :: cs => runChecks key cs (trim data) issues
  | check_min v m :: cs =>
      runChecks key cs data
        (if (length data <? v)%nat
         then issues ++ [{| path := key; message := m |}] else issues)
  | check_max v m :: cs =>
      runChecks key cs data
        (if (v <? length data)%nat
         then issues ++ [{| path := key; message := m |}] else issues)
  | check_regex test m :: cs =>
      runChecks key cs data
        (if test data
         then issues else issues ++ [{| path := key; message := m |}])
  end.

(** [z.string()...] applied to a string. *)
Definition parseString := runChecks.

(** [z.string()....optional()]: [undefined] is accepted as it is. *)
Definition parseOptional (key : jsstring) (checks : list ZodStringCheck)
    (data : option jsstring) (issues : list ZodIssue)
    : option jsstring * list ZodIssue :=
  match data with
  | None => (None, issues)
  | Some s => let '(d, iss) := parseString key checks s issues in (Some d, iss)
  end.

(** The result of [safeParse]: [success] with the parsed data, or the
    error with its issues, of which there is at least one ([errors[0]]). *)
Inductive SafeParseReturn (T : Type) :=
| success (data : T)
| failure (first : ZodIssue) (rest : list ZodIssue).
Arguments success {T}.
Arguments failure {T}.

Definition finish {T} (data : T) (issues : list ZodIssue) : SafeParseReturn T :=
  match issues with
  | [] => success data
  | i :: r => failure i r
  end.

End Zod.

(** ** Async handlers *)

Module Async.
Section handler.
Context {A Q R : Type}.

(** A handler body: it is over, it performs a synchronous action and
    goes on, or it awaits the promise of a request and goes on with what
    the promise settled to. *)
Inductive handler :=
| done
| act (a : A) (k : handler)
| await (q : Q) (k : R → handler).

(** What an observer of one handler sees. *)
Inductive event :=
| did (a : A)
| awaited (q : Q) (r : R).

(** Sequence: [h1] to its end, then [h2] ([await h1(); h2]). *)
Fixpoint andThen (h1 h2 : handler) : handler :=
  match h1 with
  | done => h2
  | act a k => act a (andThen k h2)
  | await q k => await q (λ r, andThen (k r) h2)
  end.

(** Run a handler to its end; [env] settles the promises. *)
Fixpoint run (env : Q → R) (h : handler) : list event :=
  match h with
  | done => []
  | act a k => did a :: run env k
  | await q k => awaited q (env q) :: run env (k (env q))
  end.

(** Run a handler up to its first [await]: the actions done on the way
    and the suspended rest, if any. *)
Fixpoint advance (h : handler) : list A * option (Q * (R → handler)) :=
  match h with
  | done => ([], None)
  | act a k => let '(l, s) := advance k in (a :: l, s)
  | await q k => ([], Some (q, k))
  end.

(** The actions of a trace, and its requests, in order. *)
Fixpoint actions (tr : list event) : list A :=
  match tr with
  | [] => []
  | did a :: tr' => a :: actions tr'
  | awaited _ _ :: tr' => actions tr'
  end.

Fixpoint requests (tr : list event) : list Q :=
  match tr with
  | [] => []
  | did _ :: tr' => requests tr'
  | awaited q _ :: tr' => q :: requests tr'
  end.

End handler.
Arguments handler : clear implicits.
Arguments event : clear implicits.
End Async.

Import Async.

(** A toast of the notification hook: only [variant: "destructive"] is ever
    passed, so the variant is a flag. *)
Record Toast := { title : jsstring; description : jsstring; destructive : bool }.

(** ** The [agents] table as the client sees it *)

Module Supabase.

(** A row of [public.agents]; [bio] and [llm] are nullable. *)
Record Row := {
  id : jsstring;
  name : jsstring;
  agent_id : jsstring;
  bio : option jsstring;
  llm : option jsstring;
  created_at : jsstring;
}.

(** The object given to [.insert] and [.update]. *)
Record Values := {
  v_name : jsstring;
  v_agent_id : jsstring;
  v_bio : option jsstring;
  v_llm : option jsstring;
}.

(** The queries the client builds on [supabase.from('agents')]. *)
Inductive Query :=
| update_eq_id (values : Values) (id : jsstring)
| insert (values : Values)
| delete_eq_id (id : jsstring)
| select_all_order_created_at_ascending.

Record PostgrestError := { message : jsstring }.

(** What the awaited query resolves to: [{ data, error }]. *)
Record Response := {
  data : option (list Row);
  error : option PostgrestError;
}.

Definition isMutation (q : Query) : bool :=
  match q with
  | select_all_order_created_at_ascending => false
  | _ => true
  end.

End Supabase.


(** ** [agentSchema] *)

Module AgentSchema.

(** The object the schema is applied to, and its output: [name] and
    [agentId] are strings, [bio] and [llm] strings or [undefined]. *)
Record Data := {
  name : jsstring;
  agentId : jsstring;
  bio : option jsstring;
  llm : option jsstring;
}.

(** [/^[a-zA-Z0-9_-]+$/.test(s)]: one unit or more, each a letter, a digit,
    an underscore or a hyphen, and nothing else up to the end of input. *)
Definition isIdUnit (c : N) : bool :=
  (97 <=? c) && (c <=? 122) || (65 <=? c) && (c <=? 90)
  || (48 <=? c) && (c <=? 57) || (c =? 95) || (c =? 45).

Definition agentIdPattern (s : jsstring) : bool := truthy s && forallb isIdUnit s.

Definition nameChecks : list Zod.ZodStringCheck :=
  [ Zod.check_trim;
    Zod.check_min 1 (js "Agent name is required");
    Zod.check_max 100 (js "Agent name must be less than 100 characters") ].

Definition agentIdChecks : list Zod.ZodStringCheck :=
  [ Zod.check_trim;
    Zod.check_regex agentIdPattern
      (js "Agent ID can only contain letters, numbers, hyphens, and underscores");
    Zod.check_min 3 (js "Agent ID must be at least 3 characters");
    Zod.check_max 100 (js "Agent ID must be less than 100 characters") ].

Definition bioChecks : list Zod.ZodStringCheck :=
  [ Zod.check_trim;
    Zod.check_max 1000 (js "Bio must be less than 1000 characters") ].

Definition llmChecks : list Zod.ZodStringCheck :=
  [ Zod.check_trim;
    Zod.check_max 100 (js "LLM model name must be less than 100 characters") ].

(** [agentSchema.safeParse(input)]: the keys are parsed in the order of the
    shape, every issue goes to the one issue list of the parse. *)
Definition safeParse (input : Data) : Zod.SafeParseReturn Data :=
  let '(n, i1) := Zod.parseString (js "name") nameChecks (name input) [] in
  let '(a, i2) := Zod.parseString (js "agentId") agentIdChecks (agentId input) i1 in
  let '(b, i3) := Zod.parseOptional (js "bio") bioChecks (bio input) i2 in
  let '(l, i4) := Zod.parseOptional (js "llm") llmChecks (llm input) i3 in
  Zod.finish {| name := n; agentId := a; bio := b; llm := l |} i4.

End AgentSchema.

(** ** The configuration panel, [AgentConfig] *)

Module AgentConfig.

Record Agent := {
  id : jsstring;
  name : jsstring;
  agentId : jsstring;
  bio : jsstring;
  llm : option jsstring;
}.

(** The five [useState] cells of the panel. *)
Record Form := {
  newAgentName : jsstring;
  newAgentId : jsstring;
  newAgentBio : jsstring;
  newAgentLlm : jsstring;
  editingAgentId : option jsstring;
}.

(** The synchronous effects of the panel's handlers and of the page's
    [loadAgents], which the panel receives as [onRefresh]. *)
Inductive Action :=
| toast (t : Toast)
| setNewAgentName (v : jsstring)
| setNewAgentId (v : jsstring)
| setNewAgentBio (v : jsstring)
| setNewAgentLlm (v : jsstring)
| setEditingAgentId (v : option jsstring)
| setAgents (v : list Agent).

Abbreviation Handler := (handler Action Supabase.Query Supabase.Response).

(** The object handed to [agentSchema.safeParse]. *)
Definition schemaInput (f : Form) : AgentSchema.Data :=
  {| AgentSchema.name := newAgentName f;
     AgentSchema.agentId := newAgentId f;
     AgentSchema.bio := orNull (newAgentBio f);
     AgentSchema.llm := orNull (newAgentLlm f) |}.

(** The object handed to [.update] and [.insert]. *)
Definition values (validatedData : AgentSchema.Data) : Supabase.Values :=
  {| Supabase.v_name := AgentSchema.name validatedData;
     Supabase.v_agent_id := AgentSchema.agentId validatedData;
     Supabase.v_bio := optOrNull (AgentSchema.bio validatedData);
     Supabase.v_llm := optOrNull (AgentSchema.llm validatedData) |}.

Definition errorToast (e : Supabase.PostgrestError) : Toast :=
  {| title := js "Error"; description := Supabase.message e; destructive := true |}.

(** The tail of [addOrUpdateAgent]: the five setters, then [onRefresh()]. *)
Definition resetThenRefresh (onRefresh : Handler) : Handler :=
  act (setNewAgentName [])
    (act (setNewAgentId [])
      (act (setNewAgentBio [])
        (act (setNewAgentLlm [])
          (act (setEditingAgentId None) onRefresh)))).

Definition afterUpdate (onRefresh : Handler) (validatedData : AgentSchema.Data)
    (r : Supabase.Response) : Handler :=
  match Supabase.error r with
  | Some e => act (toast (errorToast e)) done
  | None =>
      act (toast {| title := js "Agent Updated";
                    description := AgentSchema.name validatedData
                                   ++ js " has been updated successfully";
                    destructive := false |})
        (resetThenRefresh onRefresh)
  end.

Definition afterInsert (onRefresh : Handler) (validatedData : AgentSchema.Data)
    (r : Supabase.Response) : Handler :=
  match Supabase.error r with
  | Some e => act (toast (errorToast e)) done
  | None =>
      act (toast {| title := js "Agent Added";
                    description := AgentSchema.name validatedData
                                   ++ js " has been added successfully";
                    destructive := false |})
        (resetThenRefresh onRefresh)
  end.

(** [if (editingAgentId)]: the id when it is a non-empty string. *)
Definition editingTarget (f : Form) : option jsstring :=
  match editingAgentId f with
  | Some i => if truthy i then Some i else None
  | None => None
  end.

Definition addOrUpdateAgent (onRefresh : Handler) (f : Form) : Handler :=
  match AgentSchema.safeParse (schemaInput f) with
  | Zod.failure first _ =>
      act (toast {| title := js "Invalid Input";
                    description := Zod.message first;
                    destructive := true |})
        done
  | Zod.success validatedData =>
      match editingTarget f with
      | Some i =>
          await (Supabase.update_eq_id (values validatedData) i)
            (afterUpdate onRefresh validatedData)
      | None =>
          await (Supabase.insert (values validatedData))
            (afterInsert onRefresh validatedData)
      end
  end.

Definition editAgent (agent : Agent) : Handler :=
  act (setNewAgentName (name agent))
    (act (setNewAgentId (agentId agent))
      (act (setNewAgentBio (bio agent))
        (act (setNewAgentLlm (orEmpty (llm agent)))
          (act (setEditingAgentId (Some (id agent))) done)))).

Definition cancelEdit : Handler :=
  act (setNewAgentName [])
    (act (setNewAgentId [])
      (act (setNewAgentBio [])
        (act (setNewAgentLlm [])
          (act (setEditingAgentId None) done)))).

Definition afterDelete (onRefresh : Handler) (r : Supabase.Response) : Handler :=
  match Supabase.error r with
  | Some e => act (toast (errorToast e)) done
  | None =>
      act (toast {| title := js "Agent Removed";
                    description := js "Agent has been removed from the list";
                    destructive := false |})
        onRefresh
  end.

Definition removeAgent (onRefresh : Handler) (i : jsstring) : Handler :=
  await (Supabase.delete_eq_id i) (afterDelete onRefresh).

(** The label of the submit button. *)
Definition submitLabel (f : Form) : jsstring :=
  match editingTarget f with
  | Some _ => js "Update Agent"
  | None => js "Add Agent"
  end.

(** The [disabled] attribute of the submit button: the button is given
    [onClick] and [className] only. *)
Definition submitDisabled (f : Form) : bool := false.

End AgentConfig.

(** ** The page, [Index] *)

Module Index.

Definition toAgent (agent : Supabase.Row) : AgentConfig.Agent :=
  {| AgentConfig.id := Supabase.id agent;
     AgentConfig.name := Supabase.name agent;
     AgentConfig.agentId := Supabase.agent_id agent;
     AgentConfig.bio := orEmpty (Supabase.bio agent);
     AgentConfig.llm := Some (orEmpty (Supabase.llm agent)) |}.

Definition afterSelect (r : Supabase.Response) : AgentConfig.Handler :=
  match Supabase.error r with
  | Some e =>
      act (AgentConfig.toast
             {| title := js "Error loading agents";
                description := Supabase.message e;
                destructive := true |})
        done
  | None =>
      match Supabase.data r with
      | Some rows => act (AgentConfig.setAgents (map toAgent rows)) done
      | None => done
      end
  end.

Definition loadAgents : AgentConfig.Handler :=
  await Supabase.select_all_order_created_at_ascending afterSelect.

(** The registry snapshot of the page and the form of the panel it shows. *)
Record State := {
  agents : list AgentConfig.Agent;
  form : AgentConfig.Form;
}.

Definition setForm (s : State) (f : AgentConfig.Form) : State :=
  {| agents := agents s; form := f |}.

(** The effect of one action on the state; a toast changes none of it. *)
Definition apply (s : State) (a : AgentConfig.Action) : State :=
  let f := form s in
  match a with
  | AgentConfig.toast _ => s
  | AgentConfig.setNewAgentName v =>
      setForm s {| AgentConfig.newAgentName := v;
                   AgentConfig.newAgentId := AgentConfig.newAgentId f;
                   AgentConfig.newAgentBio := AgentConfig.newAgentBio f;
                   AgentConfig.newAgentLlm := AgentConfig.newAgentLlm f;
                   AgentConfig.editingAgentId := AgentConfig.editingAgentId f |}
  | AgentConfig.setNewAgentId v =>
      setForm s {| AgentConfig.newAgentName := AgentConfig.newAgentName f;
                   AgentConfig.newAgentId := v;
                   AgentConfig.newAgentBio := AgentConfig.newAgentBio f;
                   AgentConfig.newAgentLlm := AgentConfig.newAgentLlm f;
                   AgentConfig.editingAgentId := AgentConfig.editingAgentId f |}
  | AgentConfig.setNewAgentBio v =>
      setForm s {| AgentConfig.newAgentName := AgentConfig.newAgentName f;
                   AgentConfig.newAgentId := AgentConfig.newAgentId f;
                   AgentConfig.newAgentBio := v;
                   AgentConfig.newAgentLlm := AgentConfig.newAgentLlm f;
                   AgentConfig.editingAgentId := AgentConfig.editingAgentId f |}
  | AgentConfig.setNewAgentLlm v =>
      setForm s {| AgentConfig.newAgentName := AgentConfig.newAgentName f;
                   AgentConfig.newAgentId := AgentConfig.newAgentId f;
                   AgentConfig.newAgentBio := AgentConfig.newAgentBio f;
                   AgentConfig.newAgentLlm := v;
                   AgentConfig.editingAgentId := AgentConfig.editingAgentId f |}
  | AgentConfig.setEditingAgentId v =>
      setForm s {| AgentConfig.newAgentName := AgentConfig.newAgentName f;
                   AgentConfig.newAgentId := AgentConfig.newAgentId f;
                   AgentConfig.newAgentBio := AgentConfig.newAgentBio f;
                   AgentConfig.newAgentLlm := AgentConfig.newAgentLlm f;
                   AgentConfig.editingAgentId := v |}
  | AgentConfig.setAgents v => {| agents := v; form := f |}
  end.

Definition applyAll (s : State) (l : list AgentConfig.Action) : State :=
  foldl apply s l.

(** The state after a handler has run to its end. *)
Definition after (env : Supabase.Query → Supabase.Response)
    (h : AgentConfig.Handler) (s : State) : State :=
  applyAll s (actions (run env h)).

(** The panel as the page mounts it: [onRefresh={loadAgents}]. *)
Definition addOrUpdateAgent (s : State) : AgentConfig.Handler :=
  AgentConfig.addOrUpdateAgent loadAgents (form s).

Definition removeAgent (i : jsstring) : AgentConfig.Handler :=
  AgentConfig.removeAgent loadAgents i.

End Index.


(** ** The event loop

    Several handlers may be suspended at an [await] at the same time.  A
    configuration holds the component state and the suspended handlers;
    starting a handler runs it up to its first [await], settling a promise
    resumes the handler that awaits it up to its next [await] or its end. *)

Module EventLoop.
Section loop.
Context {A Q R S : Type}.
Variable apply : S → A → S.

Inductive output :=
| performed (a : A)
| requested (q : Q).

Record Config := {
  state : S;
  pending : list (Q * (R → handler A Q R));
}.

Definition spawn (c : Config) (h : handler A Q R) : Config * list output :=
  let '(acts, susp) := advance h in
  match susp with
  | Some p =>
      ({| state := foldl apply (state c) acts; pending := pending c ++ [p] |},
       map performed acts ++ [requested (fst p)])
  | None =>
      ({| state := foldl apply (state c) acts; pending := pending c |},
       map performed acts)
  end.

Definition settle (c : Config) (i : nat) (r : R) : Config * list output :=
  match pending c !! i with
  | Some p => spawn {| state := state c; pending := delete i (pending c) |} (snd p r)
  | None => (c, [])
  end.

Definition performedActions (l : list output) : list A :=
  omap (λ o, match o with performed a => Some a | requested _ => None end) l.

Definition issuedRequests (l : list output) : list Q :=
  omap (λ o, match o with performed _ => None | requested q => Some q end) l.

(** The requests that are in flight. *)
Definition inFlight (c : Config) : list Q := map fst (pending c).

End loop.
Arguments output : clear implicits.
Arguments Config : clear implicits.
End EventLoop.

(** ** The voice session controller, [VoiceAgent] *)

Module VoiceAgent.

Record VoiceAgentProps := {
  agentId : jsstring;
  agentName : jsstring;
  agentBio : option jsstring;
  agentLlm : option jsstring;
}.

(** What the component reads of the object [useConversation] returns: the
    hook hands out, at each render, the [status] and [isSpeaking] it holds
    at that render. *)
Record Conversation := {
  status : jsstring;
  isSpeaking : bool;
}.

Inductive Action :=
| toast (t : Toast)
| setIsPermissionGranted (v : bool)
| setIsInitializing (v : bool)
| console_log (label : jsstring)
| console_error (label : jsstring).

(** The promises the component awaits or fires. *)
Inductive Request :=
| getUserMedia_audio
| startSession (agentId : jsstring) (connectionType : jsstring)
| endSession.

Inductive Settled :=
| fulfilled
| rejected.

Abbreviation Handler := (handler Action Request Settled).

(** The component instance: its two [useState] cells, the [conversation]
    of its latest render, and the [conversation] that the cleanup of the
    mount effect closed over.  The effect has the dependency list [[]]: it
    runs after the first render only, so its cleanup is the closure made
    by the first render. *)
Record State := {
  isPermissionGranted : bool;
  isInitializing : bool;
  conversation : Conversation;
  cleanupConversation : Conversation;
  mounted : bool;
}.

Definition isConnected (c : Conversation) : bool :=
  bool_decide (status c = js "connected").

(** *** Callbacks given to [useConversation] *)

Definition onConnect (p : VoiceAgentProps) : Handler :=
  act (console_log (js "Connected to agent"))
    (act (toast {| title := js "Connected";
                   description := js "Now speaking with " ++ agentName p;
                   destructive := false |})
      done).

Definition onDisconnect : Handler :=
  act (console_log (js "Disconnected from agent")) done.

Definition onError : Handler :=
  act (console_error (js "Conversation error:"))
    (act (toast {| title := js "Connection Error";
                   description := js "Failed to connect to the agent. Please try again.";
                   destructive := true |})
      done).

Definition onMessage : Handler :=
  act (console_log (js "Message received:")) done.

(** *** Handlers *)

Definition afterGetUserMedia (r : Settled) : Handler :=
  match r with
  | fulfilled =>
      act (setIsPermissionGranted true)
        (act (toast {| title := js "Microphone Access Granted";
                       description := js "You can now start a conversation";
                       destructive := false |})
          done)
  | rejected =>
      act (console_error (js "Microphone access denied:"))
        (act (toast {| title := js "Microphone Access Required";
                       description := js "Please allow microphone access to use voice features";
                       destructive := true |})
          done)
  end.

Definition requestMicrophoneAccess : Handler :=
  await getUserMedia_audio afterGetUserMedia.

(** The [try] / [catch] / [finally] around [await conversation.startSession]. *)
Definition afterStartSession (r : Settled) : Handler :=
  match r with
  | fulfilled => act (setIsInitializing false) done
  | rejected =>
      act (console_error (js "Failed to start conversation:"))
        (act (toast {| title := js "Failed to Start";
                       description := js "Could not connect to the agent";
                       destructive := true |})
          (act (setIsInitializing false) done))
  end.

Definition startConversation (p : VoiceAgentProps) (s : State) : Handler :=
  if negb (isPermissionGranted s) then
    andThen requestMicrophoneAccess done
  else
    act (setIsInitializing true)
      (await (startSession (agentId p) (js "webrtc")) afterStartSession).

Definition afterEndSession (r : Settled) : Handler := done.

Definition stopConversation : Handler :=
  await endSession afterEndSession.

(** The cleanup returned by the mount effect.  [endSession()] is called and
    its promise dropped. *)
Definition cleanup (s : State) : Handler :=
  if isConnected (cleanupConversation s) then await endSession afterEndSession
  else done.

(** *** State *)

(** A setter of an unmounted component changes nothing. *)
Definition apply (s : State) (a : Action) : State :=
  if negb (mounted s) then s else
  match a with
  | setIsPermissionGranted v =>
      {| isPermissionGranted := v;
         isInitializing := isInitializing s;
         conversation := conversation s;
         cleanupConversation := cleanupConversation s;
         mounted := mounted s |}
  | setIsInitializing v =>
      {| isPermissionGranted := isPermissionGranted s;
         isInitializing := v;
         conversation := conversation s;
         cleanupConversation := cleanupConversation s;
         mounted := mounted s |}
  | toast _ | console_log _ | console_error _ => s
  end.

Definition applyAll (s : State) (l : list Action) : State := foldl apply s l.

(** The state after a handler has run to its end. *)
Definition after (env : Request → Settled) (h : Handler) (s : State) : State :=
  applyAll s (actions (run env h)).

(** The first render: both cells [false]; the mount effect closes over the
    [conversation] of this render. *)
Definition mount (c0 : Conversation) : State :=
  {| isPermissionGranted := false;
     isInitializing := false;
     conversation := c0;
     cleanupConversation := c0;
     mounted := true |}.

(** A later render, caused by the hook: [conversation] is the new object. *)
Definition render (s : State) (c : Conversation) : State :=
  {| isPermissionGranted := isPermissionGranted s;
     isInitializing := isInitializing s;
     conversation := c;
     cleanupConversation := cleanupConversation s;
     mounted := mounted s |}.

Definition unmounted (s : State) : State :=
  {| isPermissionGranted := isPermissionGranted s;
     isInitializing := isInitializing s;
     conversation := conversation s;
     cleanupConversation := cleanupConversation s;
     mounted := false |}.

(** *** The rendered button *)

Inductive Button :=
| StartConversation (disabled : bool)
| EndConversation.

Definition button (s : State) : Button :=
  if negb (isConnected (conversation s))
  then StartConversation (isInitializing s)
  else EndConversation.

(** *** The controller as a machine *)

Abbreviation Config := (EventLoop.Config Action Request Settled State).
Abbreviation Output := (EventLoop.output Action Request).

Inductive Input :=
| click_start
| click_end
| sdk_onConnect
| sdk_onDisconnect
| sdk_onError
| sdk_onMessage
| sdk_update (c : Conversation)
| settle (i : nat) (r : Settled)
| unmount.

Definition withState (c : Config) (s : State) : Config :=
  {| EventLoop.state := s; EventLoop.pending := EventLoop.pending c |}.

Definition step (p : VoiceAgentProps) (c : Config) (i : Input) : Config * list Output :=
  let s := EventLoop.state c in
  match i with
  | click_start =>
      match mounted s, button s with
      | true, StartConversation false => EventLoop.spawn apply c (startConversation p s)
      | _, _ => (c, [])
      end
  | click_end =>
      match mounted s, button s with
      | true, EndConversation => EventLoop.spawn apply c stopConversation
      | _, _ => (c, [])
      end
  | sdk_onConnect => EventLoop.spawn apply c (onConnect p)
  | sdk_onDisconnect => EventLoop.spawn apply c onDisconnect
  | sdk_onError => EventLoop.spawn apply c onError
  | sdk_onMessage => EventLoop.spawn apply c onMessage
  | sdk_update conv =>
      if mounted s then (withState c (render s conv), []) else (c, [])
  | settle n r => EventLoop.settle apply c n r
  | unmount =>
      if mounted s
      then EventLoop.spawn apply (withState c (unmounted s)) (cleanup s)
      else (c, [])
  end.

Definition init (c0 : Conversation) : Config :=
  {| EventLoop.state := mount c0; EventLoop.pending := [] |}.

(** The configuration and the outputs after a sequence of inputs. *)
Fixpoint steps (p : VoiceAgentProps) (c : Config) (l : list Input)
    : Config * list Output :=
  match l with
  | [] => (c, [])
  | i :: l' =>
      let '(c1, o1) := step p c i in
      let '(c2, o2) := steps p c1 l' in
      (c2, o1 ++ o2)
  end.

Inductive reachable (p : VoiceAgentProps) (c0 : Conversation) : Config → Prop :=
| reachable_init : reachable p c0 (init c0)
| reachable_step c i : reachable p c0 c → reachable p c0 (fst (step p c i)).

(** The toasts among the outputs of a step. *)
Definition toasts (l : list Output) : list Toast :=
  omap (λ o, match o with
             | EventLoop.performed (toast t) => Some t
             | _ => None
             end) l.

Definition isStartSession (q : Request) : bool :=
  match q with startSession _ _ => true | _ => false end.

Definition isGetUserMedia (q : Request) : bool :=
  match q with getUserMedia_audio => true | _ => false end.

Definition isEndSession (q : Request) : bool :=
  match q with endSession => true | _ => false end.

End VoiceAgent.


(** ** The page with its panel open, as a machine *)

Module Page.

#[global] Instance Agent_eq_dec : EqDecision AgentConfig.Agent.
Proof. solve_decision. Defined.

Abbreviation Config :=
  (EventLoop.Config AgentConfig.Action Supabase.Query Supabase.Response Index.State).
Abbreviation Output := (EventLoop.output AgentConfig.Action Supabase.Query).

(** What the user and the store can do.  The four inputs carry [maxLength],
    which bounds what is typed into them but not what [editAgent] puts into
    the cells; the machine lets any value in. *)
Inductive Input :=
| type_name (v : jsstring)
| type_id (v : jsstring)
| type_bio (v : jsstring)
| type_llm (v : jsstring)
| click_submit
| click_cancel
| click_edit (agent : AgentConfig.Agent)
| click_remove (agent : AgentConfig.Agent)
| settle (i : nat) (r : Supabase.Response).

Definition step (c : Config) (i : Input) : Config * list Output :=
  let s := EventLoop.state c in
  match i with
  | type_name v => EventLoop.spawn Index.apply c (act (AgentConfig.setNewAgentName v) done)
  | type_id v => EventLoop.spawn Index.apply c (act (AgentConfig.setNewAgentId v) done)
  | type_bio v => EventLoop.spawn Index.apply c (act (AgentConfig.setNewAgentBio v) done)
  | type_llm v => EventLoop.spawn Index.apply c (act (AgentConfig.setNewAgentLlm v) done)
  | click_submit =>
      if AgentConfig.submitDisabled (Index.form s) then (c, [])
      else EventLoop.spawn Index.apply c (Index.addOrUpdateAgent s)
  | click_cancel =>
      match AgentConfig.editingTarget (Index.form s) with
      | Some _ => EventLoop.spawn Index.apply c AgentConfig.cancelEdit
      | None => (c, [])
      end
  | click_edit agent =>
      if bool_decide (agent ∈ Index.agents s)
      then EventLoop.spawn Index.apply c (AgentConfig.editAgent agent)
      else (c, [])
  | click_remove agent =>
      if bool_decide (agent ∈ Index.agents s)
      then EventLoop.spawn Index.apply c (Index.removeAgent (AgentConfig.id agent))
      else (c, [])
  | settle n r => EventLoop.settle Index.apply c n r
  end.

Fixpoint steps (c : Config) (l : list Input) : Config :=
  match l with
  | [] => c
  | i :: l' => steps (fst (step c i)) l'
  end.

Definition emptyForm : AgentConfig.Form :=
  {| AgentConfig.newAgentName := [];
     AgentConfig.newAgentId := [];
     AgentConfig.newAgentBio := [];
     AgentConfig.newAgentLlm := [];
     AgentConfig.editingAgentId := None |}.

(** The panel just opened on a registry snapshot. *)
Definition init (agents : list AgentConfig.Agent) : Config :=
  {| EventLoop.state := {| Index.agents := agents; Index.form := emptyForm |};
     EventLoop.pending := [] |}.

Inductive reachable (agents : list AgentConfig.Agent) : Config → Prop :=
| reachable_init : reachable agents (init agents)
| reachable_step c i : reachable agents c → reachable agents (fst (step c i)).

(** The store mutations that are in flight. *)
Definition mutationsInFlight (c : Config) : list Supabase.Query :=
  filter (λ q, Supabase.isMutation q = true) (EventLoop.inFlight c).

End Page.

(** ** The grid of agent cards

    The page renders one [VoiceAgent] per agent, keyed by the record id;
    each instance has its own state. *)

Module Cards.

Definition stepCard (p : VoiceAgent.VoiceAgentProps)
    (cards : gmap jsstring VoiceAgent.Config) (key : jsstring)
    (i : VoiceAgent.Input) : gmap jsstring VoiceAgent.Config :=
  match cards !! key with
  | Some c => <[key := fst (VoiceAgent.step p c i)]> cards
  | None => cards
  end.

Definition mountCard (cards : gmap jsstring VoiceAgent.Config) (key : jsstring)
    (c0 : VoiceAgent.Conversation) : gmap jsstring VoiceAgent.Config :=
  <[key := VoiceAgent.init c0]> cards.

End Cards.

(** ** The specification's wording, for comparison *)

Module Spec.

(** The constraints of the data model in the order of the record's fields,
    on the fields as they would be stored, each with the message the panel
    shows for it: name required, name at most 100; external id matching the
    pattern, at least 3, at most 100; bio at most 1000; label at most 100.
    A missing external id violates the pattern, which asks for one unit at
    least; the panel has no other message for it. *)
Definition firstViolation (f : AgentConfig.Form) : option jsstring :=
  let n := trim (AgentConfig.newAgentName f) in
  let a := trim (AgentConfig.newAgentId f) in
  let b := trim (AgentConfig.newAgentBio f) in
  let l := trim (AgentConfig.newAgentLlm f) in
  if bool_decide (n = []) then
    Some (js "Agent name is required")
  else if bool_decide (100 < length n)%nat then
    Some (js "Agent name must be less than 100 characters")
  else if negb (AgentSchema.agentIdPattern a) then
    Some (js "Agent ID can only contain letters, numbers, hyphens, and underscores")
  else if bool_decide (length a < 3)%nat then
    Some (js "Agent ID must be at least 3 characters")
  else if bool_decide (100 < length a)%nat then
    Some (js "Agent ID must be less than 100 characters")
  else if bool_decide (1000 < length b)%nat then
    Some (js "Bio must be less than 1000 characters")
  else if bool_decide (100 < length l)%nat then
    Some (js "LLM model name must be less than 100 characters")
  else None.

(** The toast that reports a violation. *)
Definition invalidInput (m : jsstring) : Toast :=
  {| title := js "Invalid Input"; description := m; destructive := true |}.

(** No white space at either end. *)
Definition noPadding (s : jsstring) : Prop :=
  startsWithSpace s = false ∧ endsWithSpace s = false.

(** The strings of a written record have no white space at either end; a
    [null] is no string. *)
Definition clean (v : Supabase.Values) : Prop :=
  noPadding (Supabase.v_name v)
  ∧ noPadding (Supabase.v_agent_id v)
  ∧ (∀ b, Supabase.v_bio v = Some b → noPadding b)
  ∧ (∀ l, Supabase.v_llm v = Some l → noPadding l).

(** The record written by a query, if it writes one. *)
Definition written (q : Supabase.Query) : option Supabase.Values :=
  match q with
  | Supabase.update_eq_id v _ | Supabase.insert v => Some v
  | _ => None
  end.

(** A store call among the requests of a trace. *)
Definition storeCalls (tr : list (event AgentConfig.Action Supabase.Query Supabase.Response))
    : list Supabase.Query :=
  filter (λ q, Supabase.isMutation q = true) (requests tr).

Definition panelToasts (tr : list (event AgentConfig.Action Supabase.Query Supabase.Response))
    : list Toast :=
  omap (λ a, match a with AgentConfig.toast t => Some t | _ => None end) (actions tr).

Definition voiceToasts (tr : list (event VoiceAgent.Action VoiceAgent.Request VoiceAgent.Settled))
    : list Toast :=
  omap (λ a, match a with VoiceAgent.toast t => Some t | _ => None end) (actions tr).

(** The notification the specification attaches to a transition of the
    controller: one on connect, one on connection error, one on permission
    grant, one on permission denial, one on a failed session start, and
    none for anything else. *)
Definition notification (c : VoiceAgent.Config) (i : VoiceAgent.Input)
    : option jsstring :=
  match i with
  | VoiceAgent.sdk_onConnect => Some (js "Connected")
  | VoiceAgent.sdk_onError => Some (js "Connection Error")
  | VoiceAgent.settle n r =>
      match EventLoop.inFlight c !! n, r with
      | Some VoiceAgent.getUserMedia_audio, VoiceAgent.fulfilled =>
          Some (js "Microphone Access Granted")
      | Some VoiceAgent.getUserMedia_audio, VoiceAgent.rejected =>
          Some (js "Microphone Access Required")
      | Some (VoiceAgent.startSession _ _), VoiceAgent.rejected =>
          Some (js "Failed to Start")
      | _, _ => None
      end
  | _ => None
  end.

End Spec.


(** ** The issues of a parse, field by field *)

Module Issues.

Definition issue (k m : string) : Zod.ZodIssue :=
  {| Zod.path := js k; Zod.message := js m |}.

(** The issues the checks of each key raise on the trimmed value [s]. *)
Definition ofName (s : jsstring) : list Zod.ZodIssue :=
  if bool_decide (s = []) then [issue "name" "Agent name is required"]
  else if bool_decide (100 < length s)%nat
       then [issue "name" "Agent name must be less than 100 characters"]
       else [].

Definition ofAgentId (s : jsstring) : list Zod.ZodIssue :=
  (if AgentSchema.agentIdPattern s then []
   else [issue "agentId"
           "Agent ID can only contain letters, numbers, hyphens, and underscores"])
  ++ (if bool_decide (length s < 3)%nat
      then [issue "agentId" "Agent ID must be at least 3 characters"] else [])
  ++ (if bool_decide (100 < length s)%nat
      then [issue "agentId" "Agent ID must be less than 100 characters"] else []).

Definition ofBio (s : jsstring) : list Zod.ZodIssue :=
  if bool_decide (1000 < length s)%nat
  then [issue "bio" "Bio must be less than 1000 characters"] else [].

Definition ofLlm (s : jsstring) : list Zod.ZodIssue :=
  if bool_decide (100 < length s)%nat
  then [issue "llm" "LLM model name must be less than 100 characters"] else [].

Definition ofForm (f : AgentConfig.Form) : list Zod.ZodIssue :=
  ofName (trim (AgentConfig.newAgentName f))
  ++ ofAgentId (trim (AgentConfig.newAgentId f))
  ++ ofBio (trim (AgentConfig.newAgentBio f))
  ++ ofLlm (trim (AgentConfig.newAgentLlm f)).

(** The data of a successful parse. *)
Definition trimmed (f : AgentConfig.Form) : AgentSchema.Data :=
  {| AgentSchema.name := trim (AgentConfig.newAgentName f);
     AgentSchema.agentId := trim (AgentConfig.newAgentId f);
     AgentSchema.bio := trim <$> orNull (AgentConfig.newAgentBio f);
     AgentSchema.llm := trim <$> orNull (AgentConfig.newAgentLlm f) |}.

(** The one mutation a valid form submits. *)
Definition submitted (f : AgentConfig.Form) : Supabase.Query :=
  match AgentConfig.editingTarget f with
  | Some i => Supabase.update_eq_id (AgentConfig.values (trimmed f)) i
  | None => Supabase.insert (AgentConfig.values (trimmed f))
  end.

End Issues.

(** ** Concrete inputs used below *)

Module Scenario.

Definition form (n i b l : string) (editing : option jsstring) : AgentConfig.Form :=
  {| AgentConfig.newAgentName := js n;
     AgentConfig.newAgentId := js i;
     AgentConfig.newAgentBio := js b;
     AgentConfig.newAgentLlm := js l;
     AgentConfig.editingAgentId := editing |}.

(** The rejected submission of the specification: the id has two units. *)
Definition shortId : AgentConfig.Form := form "Support" "ag" "" "" None.

(** The accepted submission of the specification. *)
Definition support : AgentConfig.Form :=
  form "Support" "agent_123" "Helps users" "GPT-4" None.

(** The same with white space around every field. *)
Definition padded : AgentConfig.Form :=
  form "  Support " " agent_123  " " Helps users " "  GPT-4 " None.

Definition blankName : AgentConfig.Form := form "   " "agent_123" "" "" None.

Definition ok : Supabase.Response :=
  {| Supabase.data := None; Supabase.error := None |}.

Definition denied : Supabase.Response :=
  {| Supabase.data := None;
     Supabase.error :=
       Some {| Supabase.message := js "new row violates row-level security policy" |} |}.

Definition row1 : Supabase.Row :=
  {| Supabase.id := js "7f3c";
     Supabase.name := js "Support";
     Supabase.agent_id := js "agent_123";
     Supabase.bio := Some (js "Helps users");
     Supabase.llm := None;
     Supabase.created_at := js "2025-10-28T18:59:56Z" |}.

Definition listed : Supabase.Response :=
  {| Supabase.data := Some [row1]; Supabase.error := None |}.

(** A store that accepts every mutation and lists [row1]. *)
Definition accepting (q : Supabase.Query) : Supabase.Response :=
  if Supabase.isMutation q then ok else listed.

(** A store that refuses every mutation. *)
Definition refusing (q : Supabase.Query) : Supabase.Response :=
  if Supabase.isMutation q then denied else listed.

Definition agent1 : AgentConfig.Agent := Index.toAgent row1.

Definition props : VoiceAgent.VoiceAgentProps :=
  {| VoiceAgent.agentId := js "agent_123";
     VoiceAgent.agentName := js "Support";
     VoiceAgent.agentBio := Some (js "Helps users");
     VoiceAgent.agentLlm := None |}.

Definition disconnected : VoiceAgent.Conversation :=
  {| VoiceAgent.status := js "disconnected"; VoiceAgent.isSpeaking := false |}.

Definition connecting : VoiceAgent.Conversation :=
  {| VoiceAgent.status := js "connecting"; VoiceAgent.isSpeaking := false |}.

Definition connected : VoiceAgent.Conversation :=
  {| VoiceAgent.status := js "connected"; VoiceAgent.isSpeaking := false |}.

Definition allow (q : VoiceAgent.Request) : VoiceAgent.Settled := VoiceAgent.fulfilled.

Definition refuse (q : VoiceAgent.Request) : VoiceAgent.Settled := VoiceAgent.rejected.

End Scenario.

(** ** Invariants of the controller *)

Module Invariant.

(** The handlers that can be suspended in a controller are the three that
    the component starts; each awaits one request and resumes as written. *)
Definition known (e : VoiceAgent.Request * (VoiceAgent.Settled → VoiceAgent.Handler))
    : Prop :=
  match fst e with
  | VoiceAgent.getUserMedia_audio =>
      ∀ r, snd e r = andThen (VoiceAgent.afterGetUserMedia r) done
  | VoiceAgent.startSession _ _ => ∀ r, snd e r = VoiceAgent.afterStartSession r
  | VoiceAgent.endSession => ∀ r, snd e r = done
  end.

(** The number of session starts among suspended handlers. *)
Definition starts
    (l : list (VoiceAgent.Request * (VoiceAgent.Settled → VoiceAgent.Handler))) : nat :=
  length (filter (λ q, VoiceAgent.isStartSession q = true) (map fst l)).

(** The number of session starts in flight. *)
Definition startsInFlight (c : VoiceAgent.Config) : nat :=
  starts (EventLoop.pending c).

Record holds (c : VoiceAgent.Config) : Prop := {
  pending_known : Forall known (EventLoop.pending c);
  one_start : (startsInFlight c ≤ 1)%nat;
  start_initializing :
    startsInFlight c = 1%nat → VoiceAgent.isInitializing (EventLoop.state c) = true;
  start_granted :
    VoiceAgent.isPermissionGranted (EventLoop.state c) = false →
    VoiceAgent.isInitializing (EventLoop.state c) = false ∧ startsInFlight c = 0%nat;
}.

End Invariant.

(** ** The authentication gate of the page *)

Module SupabaseAuth.

(** A user object: [ref] stands for its identity, which is what the
    dependency list of an effect compares; [email] is the one field the
    page reads. *)
Record User := {
  ref : N;
  email : option jsstring;
}.

Record Session := {
  user : User;
}.

#[global] Instance User_eq_dec : EqDecision User.
Proof. solve_decision. Defined.

End SupabaseAuth.

Module Shell.

(** A handler with its actions renamed. *)
Fixpoint mapActions {A B Q R} (f : A → B) (h : handler A Q R) : handler B Q R :=
  match h with
  | done => done
  | act a k => act (f a) (mapActions f k)
  | await q k => await q (λ r, mapActions f (k r))
  end.

(** The four [useState] cells of [Index]. *)
Record State := {
  showConfig : bool;
  agents : list AgentConfig.Agent;
  user : option SupabaseAuth.User;
  loading : bool;
}.

(** The effects of the page: those of [loadAgents], its own setters, and
    the navigation. *)
Inductive Action :=
| page (a : AgentConfig.Action)
| setShowConfig (v : bool)
| setUser (v : option SupabaseAuth.User)
| setLoading (v : bool)
| navigate (to : jsstring).

Abbreviation Handler := (handler Action Supabase.Query Supabase.Response).
Abbreviation Config := (EventLoop.Config Action Supabase.Query Supabase.Response State).
Abbreviation Output := (EventLoop.output Action Supabase.Query).

(** [session?.user ?? null] *)
Definition userOf (session : option SupabaseAuth.Session) : option SupabaseAuth.User :=
  SupabaseAuth.user <$> session.

(** The callback of [getSession().then]. *)
Definition onGetSession (session : option SupabaseAuth.Session) : Handler :=
  act (setUser (userOf session))
    (act (setLoading false)
      (match session with
       | None => act (navigate (js "/auth")) done
       | Some _ => done
       end)).

(** The callback given to [onAuthStateChange]. *)
Definition onAuthStateChange (session : option SupabaseAuth.Session) : Handler :=
  act (setUser (userOf session))
    (match session with
     | None => act (navigate (js "/auth")) done
     | Some _ => done
     end).

(** The body of the effect that depends on [user]. *)
Definition userEffect (u : option SupabaseAuth.User) : Handler :=
  match u with
  | Some _ => mapActions page Index.loadAgents
  | None => done
  end.

(** Of the actions of [loadAgents], [setAgents] is the page's setter; a
    toast changes no cell, and the setters of the panel are not the
    page's. *)
Definition apply (s : State) (a : Action) : State :=
  match a with
  | page (AgentConfig.setAgents v) =>
      {| showConfig := showConfig s; agents := v; user := user s; loading := loading s |}
  | page _ => s
  | setShowConfig v =>
      {| showConfig := v; agents := agents s; user := user s; loading := loading s |}
  | setUser v =>
      {| showConfig := showConfig s; agents := agents s; user := v; loading := loading s |}
  | setLoading v =>
      {| showConfig := showConfig s; agents := agents s; user := user s; loading := v |}
  | navigate _ => s
  end.

(** After a render in which [user] is not the object it was, the effect
    runs again. *)
Definition commit (before : option SupabaseAuth.User) (r : Config * list Output)
    : Config * list Output :=
  if decide (user (EventLoop.state (fst r)) = before) then r
  else
    let r' := EventLoop.spawn apply (fst r) (userEffect (user (EventLoop.state (fst r)))) in
    (fst r', snd r ++ snd r').

(** What is rendered: the loading line, or the page with the cards of the
    registry (the call to action when there is none) and the panel when it
    is open. *)
Inductive View :=
| Loading
| Rendered (userEmail : option jsstring) (cards : list AgentConfig.Agent)
    (callToAction : bool) (panel : bool).

Definition view (s : State) : View :=
  if loading s then Loading
  else Rendered (s.(user) ≫= SupabaseAuth.email) (agents s)
         (bool_decide (length (agents s) = 0%nat)) (showConfig s).

Inductive Input :=
| getSession_resolved (session : option SupabaseAuth.Session)
| authStateChange (session : option SupabaseAuth.Session)
| click_settings
| click_configure_agents
| click_done
| settle (i : nat) (r : Supabase.Response).

Definition step (c : Config) (i : Input) : Config * list Output :=
  let s := EventLoop.state c in
  match i with
  | getSession_resolved session =>
      commit (user s) (EventLoop.spawn apply c (onGetSession session))
  | authStateChange session =>
      commit (user s) (EventLoop.spawn apply c (onAuthStateChange session))
  | click_settings =>
      match view s with
      | Rendered _ _ _ _ => EventLoop.spawn apply c (act (setShowConfig true) done)
      | Loading => (c, [])
      end
  | click_configure_agents =>
      match view s with
      | Rendered _ _ true _ => EventLoop.spawn apply c (act (setShowConfig true) done)
      | _ => (c, [])
      end
  | click_done =>
      match view s with
      | Rendered _ _ _ true => EventLoop.spawn apply c (act (setShowConfig false) done)
      | _ => (c, [])
      end
  | settle n r => commit (user s) (EventLoop.settle apply c n r)
  end.

Fixpoint steps (c : Config) (l : list Input) : Config * list Output :=
  match l with
  | [] => (c, [])
  | i :: l' =>
      let r1 := step c i in
      let r2 := steps (fst r1) l' in
      (fst r2, snd r1 ++ snd r2)
  end.

(** The first render; the effect on [user] runs and finds no user. *)
Definition init : Config :=
  {| EventLoop.state :=
       {| showConfig := false; agents := []; user := None; loading := true |};
     EventLoop.pending := [] |}.

Inductive reachable : Config → Prop :=
| reachable_init : reachable init
| reachable_step c i : reachable c → reachable (fst (step c i)).

(** The session an input carries, if it is an authentication event. *)
Definition sessionOf (i : Input) : option (option SupabaseAuth.Session) :=
  match i with
  | getSession_resolved s | authStateChange s => Some s
  | _ => None
  end.

Definition navigations (l : list Output) : list jsstring :=
  omap (λ o, match o with EventLoop.performed (navigate to) => Some to | _ => None end) l.

End Shell.

(** ** Suspended handlers of the panel *)

Module PageInvariant.

(** The handlers that can be suspended in the page are those of the three
    mutations and of the listing. *)
Definition known (e : Supabase.Query * (Supabase.Response → AgentConfig.Handler)) : Prop :=
  match fst e with
  | Supabase.update_eq_id _ _ =>
      ∃ d, ∀ r, snd e r = AgentConfig.afterUpdate Index.loadAgents d r
  | Supabase.insert _ =>
      ∃ d, ∀ r, snd e r = AgentConfig.afterInsert Index.loadAgents d r
  | Supabase.delete_eq_id _ => ∀ r, snd e r = AgentConfig.afterDelete Index.loadAgents r
  | Supabase.select_all_order_created_at_ascending => ∀ r, snd e r = Index.afterSelect r
  end.

Definition holds (c : Page.Config) : Prop := Forall known (EventLoop.pending c).

End PageInvariant.

(** ** The data model, as a predicate *)

Module DataModel.

(** The fields of a record as they would be stored meet the constraints:
    name of 1 to 100 units; external id of 3 to 100 letters, digits,
    underscores and hyphens; bio of at most 1000 units; label of at most
    100. *)
Definition accepted (f : AgentConfig.Form) : Prop :=
  let n := trim (AgentConfig.newAgentName f) in
  let a := trim (AgentConfig.newAgentId f) in
  (1 ≤ length n ≤ 100)%nat
  ∧ AgentSchema.agentIdPattern a = true
  ∧ (3 ≤ length a ≤ 100)%nat
  ∧ (length (trim (AgentConfig.newAgentBio f)) ≤ 1000)%nat
  ∧ (length (trim (AgentConfig.newAgentLlm f)) ≤ 100)%nat.

(** An optional text that is stored: absent, or not empty and within its
    bound. *)
Definition optionalWithin (bound : nat) (v : option jsstring) : Prop :=
  match v with
  | None => True
  | Some s => s ≠ [] ∧ (length s ≤ bound)%nat
  end.

Definition valid (v : Supabase.Values) : Prop :=
  (1 ≤ length (Supabase.v_name v) ≤ 100)%nat
  ∧ AgentSchema.agentIdPattern (Supabase.v_agent_id v) = true
  ∧ (3 ≤ length (Supabase.v_agent_id v) ≤ 100)%nat
  ∧ optionalWithin 1000 (Supabase.v_bio v)
  ∧ optionalWithin 100 (Supabase.v_llm v).

(** The record a row holds. *)
Definition valuesOf (row : Supabase.Row) : Supabase.Values :=
  {| Supabase.v_name := Supabase.name row;
     Supabase.v_agent_id := Supabase.agent_id row;
     Supabase.v_bio := Supabase.bio row;
     Supabase.v_llm := Supabase.llm row |}.

(** A row as the panel writes them: valid, and without white space around
    its texts. *)
Definition tidy (row : Supabase.Row) : Prop :=
  valid (valuesOf row) ∧ Spec.clean (valuesOf row).

End DataModel.

(** * Properties *)

Arguments js : simpl never.

(** ** Strings *)

Lemma trimStart_not_startsWithSpace (s : jsstring) :
  startsWithSpace (trimStart s) = false.
Proof.
  induction s as [|c r IH]; [done|].
  simpl. destruct (isWhiteSpace c) eqn:E; [done|]. simpl. by rewrite E.
Qed.

Lemma trimEnd_not_endsWithSpace (s : jsstring) :
  endsWithSpace (trimEnd s) = false.
Proof.
  unfold endsWithSpace.
  induction s as [|c r IH]; [done|].
  simpl. destruct (trimEnd r) as [|d r'] eqn:E.
  - destruct (isWhiteSpace c) eqn:W; [done|]. simpl. by rewrite W.
  - by rewrite last_cons_cons.
Qed.

Lemma trimEnd_head (s : jsstring) :
  startsWithSpace s = false → startsWithSpace (trimEnd s) = false.
Proof.
  destruct s as [|c r]; [done|].
  simpl. intros W. destruct (trimEnd r); [|done].
  by rewrite W.
Qed.

Lemma trim_not_startsWithSpace (s : jsstring) : startsWithSpace (trim s) = false.
Proof. apply trimEnd_head, trimStart_not_startsWithSpace. Qed.

Lemma trim_not_endsWithSpace (s : jsstring) : endsWithSpace (trim s) = false.
Proof. apply trimEnd_not_endsWithSpace. Qed.

Lemma trimStart_length (s : jsstring) : (length (trimStart s) ≤ length s)%nat.
Proof.
  induction s as [|c r IH]; [done|].
  simpl. destruct (isWhiteSpace c); simpl; lia.
Qed.

Lemma trimEnd_length (s : jsstring) : (length (trimEnd s) ≤ length s)%nat.
Proof.
  induction s as [|c r IH]; [done|].
  simpl. destruct (trimEnd r); [destruct (isWhiteSpace c)|]; simpl in *; lia.
Qed.

Lemma trim_length (s : jsstring) : (length (trim s) ≤ length s)%nat.
Proof.
  unfold trim. etrans; [apply trimEnd_length|apply trimStart_length].
Qed.

Lemma trimStart_all_space (s : jsstring) :
  forallb isWhiteSpace s = true → trimStart s = [].
Proof.
  induction s as [|c r IH]; [done|].
  simpl. intros [W H]%andb_prop. rewrite W. auto.
Qed.

Lemma trim_all_space (s : jsstring) :
  forallb isWhiteSpace s = true → trim s = [].
Proof. intros H. unfold trim. by rewrite trimStart_all_space. Qed.

Lemma trimStart_id (s : jsstring) : startsWithSpace s = false → trimStart s = s.
Proof. destruct s as [|c r]; [done|]. simpl. by intros ->. Qed.

Lemma trimEnd_id (s : jsstring) : endsWithSpace s = false → trimEnd s = s.
Proof.
  unfold endsWithSpace.
  induction s as [|c r IH]; [done|].
  destruct r as [|d r'].
  - simpl. by intros ->.
  - rewrite last_cons_cons. intros H. specialize (IH H).
    change (trimEnd (c :: d :: r')) with
      (match trimEnd (d :: r') with
       | [] => if isWhiteSpace c then [] else [c]
       | r0 => c :: r0
       end).
    by rewrite IH.
Qed.

Lemma trim_id (s : jsstring) :
  startsWithSpace s = false → endsWithSpace s = false → trim s = s.
Proof. intros H1 H2. unfold trim. rewrite trimStart_id; [by apply trimEnd_id|done]. Qed.

Lemma trim_idempotent (s : jsstring) : trim (trim s) = trim s.
Proof. apply trim_id; [apply trim_not_startsWithSpace|apply trim_not_endsWithSpace]. Qed.

Lemma truthy_nil (s : jsstring) : truthy s = false ↔ s = [].
Proof. by destruct s. Qed.

(** ** The schema *)

Lemma runChecks_issues key cs data iss :
  Zod.runChecks key cs data iss =
  (fst (Zod.runChecks key cs data []), iss ++ snd (Zod.runChecks key cs data [])).
Proof.
  revert data iss.
  induction cs as [|c cs IH]; intros data iss; simpl.
  - by rewrite app_nil_r.
  - destruct c as [|v m|v m|t m]; [apply IH|..];
      rewrite IH; symmetry; rewrite IH; cbn [fst snd];
      case_match; f_equal; by rewrite <- ?app_assoc.
Qed.

Lemma ltb_bool_decide (a b : nat) : (a <? b)%nat = bool_decide (a < b)%nat.
Proof.
  case_bool_decide as H; [by apply Nat.ltb_lt|by apply Nat.ltb_nlt].
Qed.

Lemma parse_name s iss :
  Zod.parseString (js "name") AgentSchema.nameChecks s iss =
  (trim s, iss ++ Issues.ofName (trim s)).
Proof.
  unfold Zod.parseString. rewrite runChecks_issues.
  unfold AgentSchema.nameChecks, Issues.ofName. cbn [Zod.runChecks fst snd].
  rewrite !ltb_bool_decide.
  destruct (trim s) as [|c r]; [done|].
  rewrite (bool_decide_eq_false_2 (c :: r = [])) by done.
  rewrite (bool_decide_eq_false_2 (length (c :: r) < 1)%nat) by (simpl; lia).
  by case_bool_decide.
Qed.

Lemma parse_agentId s iss :
  Zod.parseString (js "agentId") AgentSchema.agentIdChecks s iss =
  (trim s, iss ++ Issues.ofAgentId (trim s)).
Proof.
  unfold Zod.parseString. rewrite runChecks_issues.
  unfold AgentSchema.agentIdChecks, Issues.ofAgentId. cbn [Zod.runChecks fst snd].
  rewrite !ltb_bool_decide.
  by destruct (AgentSchema.agentIdPattern (trim s)); repeat case_bool_decide.
Qed.

Lemma parse_bio s iss :
  Zod.parseOptional (js "bio") AgentSchema.bioChecks (orNull s) iss =
  (trim <$> orNull s, iss ++ Issues.ofBio (trim s)).
Proof.
  unfold Issues.ofBio.
  destruct s as [|c r]; unfold orNull; cbn [truthy Zod.parseOptional].
  - rewrite bool_decide_eq_false_2 by (cbn; lia). by rewrite app_nil_r.
  - unfold Zod.parseString. rewrite runChecks_issues.
    unfold AgentSchema.bioChecks. cbn [Zod.runChecks fst snd].
    rewrite ltb_bool_decide. by case_bool_decide.
Qed.

Lemma parse_llm s iss :
  Zod.parseOptional (js "llm") AgentSchema.llmChecks (orNull s) iss =
  (trim <$> orNull s, iss ++ Issues.ofLlm (trim s)).
Proof.
  unfold Issues.ofLlm.
  destruct s as [|c r]; unfold orNull; cbn [truthy Zod.parseOptional].
  - rewrite bool_decide_eq_false_2 by (cbn; lia). by rewrite app_nil_r.
  - unfold Zod.parseString. rewrite runChecks_issues.
    unfold AgentSchema.llmChecks. cbn [Zod.runChecks fst snd].
    rewrite ltb_bool_decide. by case_bool_decide.
Qed.

Lemma safeParse_issues f :
  AgentSchema.safeParse (AgentConfig.schemaInput f) =
  Zod.finish (Issues.trimmed f) (Issues.ofForm f).
Proof.
  unfold AgentSchema.safeParse, AgentConfig.schemaInput.
  cbn [AgentSchema.name AgentSchema.agentId AgentSchema.bio AgentSchema.llm].
  rewrite parse_name, parse_agentId, parse_bio, parse_llm.
  unfold Issues.ofForm, Issues.trimmed. by rewrite !app_nil_l, <- !app_assoc.
Qed.

(** The first issue of a parse carries the message of the first violated
    constraint, and there is an issue exactly when a constraint is violated. *)
Lemma first_issue_message f :
  Zod.message <$> head (Issues.ofForm f) = Spec.firstViolation f.
Proof.
  unfold Issues.ofForm, Spec.firstViolation, Issues.ofName, Issues.ofAgentId,
    Issues.ofBio, Issues.ofLlm.
  destruct (AgentSchema.agentIdPattern _); repeat case_bool_decide; try done.
Qed.

(** ** [addOrUpdateAgent] *)

Lemma addOrUpdateAgent_invalid onRefresh f m :
  Spec.firstViolation f = Some m →
  AgentConfig.addOrUpdateAgent onRefresh f = act (AgentConfig.toast (Spec.invalidInput m)) done.
Proof.
  intros H. unfold AgentConfig.addOrUpdateAgent.
  rewrite safeParse_issues. rewrite <- first_issue_message in H.
  destruct (Issues.ofForm f) as [|i r]; [done|].
  simpl in *. by injection H as ->.
Qed.

Lemma addOrUpdateAgent_valid onRefresh f :
  Spec.firstViolation f = None →
  AgentConfig.addOrUpdateAgent onRefresh f =
  match AgentConfig.editingTarget f with
  | Some i =>
      await (Supabase.update_eq_id (AgentConfig.values (Issues.trimmed f)) i)
        (AgentConfig.afterUpdate onRefresh (Issues.trimmed f))
  | None =>
      await (Supabase.insert (AgentConfig.values (Issues.trimmed f)))
        (AgentConfig.afterInsert onRefresh (Issues.trimmed f))
  end.
Proof.
  intros H. unfold AgentConfig.addOrUpdateAgent.
  rewrite safeParse_issues. rewrite <- first_issue_message in H.
  by destruct (Issues.ofForm f).
Qed.

(** C1. A submission that violates a constraint of the data model is turned
    down before any store call: the handler shows one toast, whose text is
    the message of the first violated constraint, and does nothing else. *)
Theorem invalid_submission_rejected onRefresh f env m :
  Spec.firstViolation f = Some m →
  let tr := run env (AgentConfig.addOrUpdateAgent onRefresh f) in
  tr = [did (AgentConfig.toast (Spec.invalidInput m))]
  ∧ requests tr = []
  ∧ Spec.panelToasts tr = [Spec.invalidInput m].
Proof.
  intros H tr. subst tr. by rewrite (addOrUpdateAgent_invalid _ _ _ H).
Qed.

Lemma invalid_submission_rejected_witness :
  Spec.firstViolation Scenario.shortId = Some (js "Agent ID must be at least 3 characters")
  ∧ run Scenario.accepting (Index.addOrUpdateAgent
        {| Index.agents := []; Index.form := Scenario.shortId |})
    = [did (AgentConfig.toast (Spec.invalidInput (js "Agent ID must be at least 3 characters")))].
Proof.
  split; [by vm_compute|].
  apply (invalid_submission_rejected Index.loadAgents Scenario.shortId Scenario.accepting).
  by vm_compute.
Defined.

(** What follows a settled mutation: the reload when there is no error,
    nothing when there is one. *)
Lemma requests_loadAgents env :
  requests (run env Index.loadAgents) = [Supabase.select_all_order_created_at_ascending].
Proof.
  unfold Index.loadAgents, Index.afterSelect. simpl.
  by destruct (Supabase.error _); [|destruct (Supabase.data _)].
Qed.

Lemma requests_afterUpdate env d r :
  requests (run env (AgentConfig.afterUpdate Index.loadAgents d r)) =
  match Supabase.error r with
  | None => [Supabase.select_all_order_created_at_ascending]
  | Some _ => []
  end.
Proof.
  unfold AgentConfig.afterUpdate. destruct (Supabase.error r); [done|].
  apply requests_loadAgents.
Qed.

Lemma requests_afterInsert env d r :
  requests (run env (AgentConfig.afterInsert Index.loadAgents d r)) =
  match Supabase.error r with
  | None => [Supabase.select_all_order_created_at_ascending]
  | Some _ => []
  end.
Proof.
  unfold AgentConfig.afterInsert. destruct (Supabase.error r); [done|].
  apply requests_loadAgents.
Qed.

Lemma requests_afterDelete env r :
  requests (run env (AgentConfig.afterDelete Index.loadAgents r)) =
  match Supabase.error r with
  | None => [Supabase.select_all_order_created_at_ascending]
  | Some _ => []
  end.
Proof.
  unfold AgentConfig.afterDelete. destruct (Supabase.error r); [done|].
  apply requests_loadAgents.
Qed.

Lemma requests_addOrUpdateAgent_valid env s :
  Spec.firstViolation (Index.form s) = None →
  requests (run env (Index.addOrUpdateAgent s)) =
  Issues.submitted (Index.form s) ::
  match Supabase.error (env (Issues.submitted (Index.form s))) with
  | None => [Supabase.select_all_order_created_at_ascending]
  | Some _ => []
  end.
Proof.
  intros H. unfold Index.addOrUpdateAgent, Issues.submitted.
  rewrite (addOrUpdateAgent_valid _ _ H).
  destruct (AgentConfig.editingTarget _); cbn [run requests];
    by rewrite ?requests_afterUpdate, ?requests_afterInsert.
Qed.

Lemma trim_noPadding s : Spec.noPadding (trim s).
Proof. split; [apply trim_not_startsWithSpace|apply trim_not_endsWithSpace]. Qed.

Lemma optional_noPadding s b :
  optOrNull (trim <$> orNull s) = Some b → Spec.noPadding b.
Proof.
  unfold orNull. destruct (truthy s); [|done]. simpl.
  unfold orNull. destruct (truthy (trim s)); [|done].
  intros [= <-]. apply trim_noPadding.
Qed.

Lemma values_clean f : Spec.clean (AgentConfig.values (Issues.trimmed f)).
Proof.
  unfold Spec.clean. simpl.
  split; [apply trim_noPadding|]. split; [apply trim_noPadding|].
  split; intros x Hx; by apply optional_noPadding in Hx.
Qed.

Lemma written_submitted f :
  Spec.written (Issues.submitted f) = Some (AgentConfig.values (Issues.trimmed f)).
Proof. unfold Issues.submitted. by destruct (AgentConfig.editingTarget f). Qed.

(** C8. Every field is trimmed before it is checked and before it is
    stored: a name of white space only is turned down as missing; a form
    whose trimmed fields meet the constraints is Issues.submitted, with the
    trimmed fields; no string written to the store has white space at
    either end. *)
Theorem fields_trimmed_before_checks s env :
  let f := Index.form s in
  let tr := run env (Index.addOrUpdateAgent s) in
  (forallb isWhiteSpace (AgentConfig.newAgentName f) = true →
     tr = [did (AgentConfig.toast (Spec.invalidInput (js "Agent name is required")))])
  ∧ (Spec.firstViolation f = None →
     ∃ q, head (requests tr) = Some q
          ∧ Spec.written q = Some (AgentConfig.values (Issues.trimmed f)))
  ∧ (∀ q v, q ∈ requests tr → Spec.written q = Some v → Spec.clean v).
Proof.
  intros f tr. subst f tr. split; [|split].
  - intros W. unfold Index.addOrUpdateAgent.
    rewrite (addOrUpdateAgent_invalid _ _ (js "Agent name is required")); [done|].
    unfold Spec.firstViolation. rewrite (trim_all_space _ W).
    by rewrite bool_decide_eq_true_2.
  - intros V. rewrite (requests_addOrUpdateAgent_valid _ _ V).
    eexists. split; [done|]. apply written_submitted.
  - intros q v Hq Hw.
    destruct (Spec.firstViolation (Index.form s)) as [m|] eqn:V.
    + unfold Index.addOrUpdateAgent in Hq.
      rewrite (addOrUpdateAgent_invalid _ _ _ V) in Hq. by apply elem_of_nil in Hq.
    + rewrite (requests_addOrUpdateAgent_valid _ _ V) in Hq.
      apply elem_of_cons in Hq as [->|Hq].
      * rewrite written_submitted in Hw. injection Hw as <-. apply values_clean.
      * destruct (Supabase.error _); [by apply elem_of_nil in Hq|].
        apply list_elem_of_singleton in Hq as ->. done.
Qed.

Lemma fields_trimmed_before_checks_witness :
  (run Scenario.accepting (Index.addOrUpdateAgent
       {| Index.agents := []; Index.form := Scenario.blankName |})
   = [did (AgentConfig.toast (Spec.invalidInput (js "Agent name is required")))])
  ∧ (∃ q, head (requests (run Scenario.accepting (Index.addOrUpdateAgent
              {| Index.agents := []; Index.form := Scenario.padded |}))) = Some q
          ∧ Spec.written q = Some (AgentConfig.values (Issues.trimmed Scenario.support)))
  ∧ Spec.clean (AgentConfig.values (Issues.trimmed Scenario.padded)).
Proof.
  split; [|split].
  - apply (fields_trimmed_before_checks
             {| Index.agents := []; Index.form := Scenario.blankName |} Scenario.accepting).
    by vm_compute.
  - apply (fields_trimmed_before_checks
             {| Index.agents := []; Index.form := Scenario.padded |} Scenario.accepting).
    by vm_compute.
  - refine (proj2 (proj2 (fields_trimmed_before_checks
             {| Index.agents := []; Index.form := Scenario.padded |} Scenario.accepting))
             (Supabase.insert (AgentConfig.values (Issues.trimmed Scenario.padded))) _ _ _).
    + vm_compute. apply list_elem_of_here.
    + reflexivity.
Defined.

(** ** What the handlers leave behind *)

Lemma state_eta (s : Index.State) :
  {| Index.agents := Index.agents s; Index.form := Index.form s |} = s.
Proof. by destruct s. Qed.

Lemma after_loadAgents_form env s :
  Index.form (Index.after env Index.loadAgents s) = Index.form s.
Proof.
  unfold Index.after, Index.loadAgents, Index.afterSelect. simpl.
  by destruct (Supabase.error _); [|destruct (Supabase.data _)].
Qed.

Lemma after_loadAgents_agents env s rows :
  env Supabase.select_all_order_created_at_ascending
    = {| Supabase.data := Some rows; Supabase.error := None |} →
  Index.agents (Index.after env Index.loadAgents s) = map Index.toAgent rows.
Proof.
  intros H. unfold Index.after, Index.loadAgents, Index.afterSelect. simpl.
  by rewrite H.
Qed.

Lemma after_reset_loadAgents env s :
  Index.applyAll s (actions (run env (AgentConfig.resetThenRefresh Index.loadAgents))) =
  Index.after env Index.loadAgents (Index.setForm s Page.emptyForm).
Proof. done. Qed.

Lemma run_addOrUpdateAgent_valid env s :
  Spec.firstViolation (Index.form s) = None →
  let q := Issues.submitted (Index.form s) in
  ∃ post,
    run env (Index.addOrUpdateAgent s) = awaited q (env q) :: post
    ∧ requests post
      = match Supabase.error (env q) with
        | None => [Supabase.select_all_order_created_at_ascending]
        | Some _ => []
        end
    ∧ Index.applyAll s (actions post)
      = match Supabase.error (env q) with
        | None => Index.after env Index.loadAgents (Index.setForm s Page.emptyForm)
        | Some _ => s
        end.
Proof.
  intros H q. subst q. unfold Index.addOrUpdateAgent, Issues.submitted.
  rewrite (addOrUpdateAgent_valid _ _ H).
  destruct (AgentConfig.editingTarget _); cbn [run]; eexists; (split; [done|]);
    rewrite ?requests_afterUpdate, ?requests_afterInsert; (split; [done|]);
    unfold AgentConfig.afterUpdate, AgentConfig.afterInsert;
    by destruct (Supabase.error _).
Qed.

Lemma run_removeAgent env i s :
  let q := Supabase.delete_eq_id i in
  ∃ post,
    run env (Index.removeAgent i) = awaited q (env q) :: post
    ∧ requests post
      = match Supabase.error (env q) with
        | None => [Supabase.select_all_order_created_at_ascending]
        | Some _ => []
        end
    ∧ Index.applyAll s (actions post)
      = match Supabase.error (env q) with
        | None => Index.after env Index.loadAgents s
        | Some _ => s
        end.
Proof.
  intros q. subst q. unfold Index.removeAgent, AgentConfig.removeAgent.
  cbn [run]. eexists. split; [done|]. rewrite requests_afterDelete. split; [done|].
  unfold AgentConfig.afterDelete. by destruct (Supabase.error _).
Qed.

Lemma mutation_not_select q :
  Supabase.isMutation q = true → q ≠ Supabase.select_all_order_created_at_ascending.
Proof. by intros H ->. Qed.

(** C4. The panel asks for a reload of the registry exactly when the
    mutation it issued resolved without an error, and only after it
    resolved: the trace of the handler starts with the settled mutation,
    the one query that may follow is the listing ordered by [created_at]
    ascending, it follows exactly when the mutation reported no error, and
    what it lists then replaces the snapshot as a whole. *)
Theorem reload_iff_mutation_resolved s env h q :
  h = Index.addOrUpdateAgent s ∨ (∃ i, h = Index.removeAgent i) →
  q ∈ requests (run env h) →
  Supabase.isMutation q = true →
  ∃ post,
    run env h = awaited q (env q) :: post
    ∧ requests post
      = match Supabase.error (env q) with
        | None => [Supabase.select_all_order_created_at_ascending]
        | Some _ => []
        end
    ∧ (Supabase.select_all_order_created_at_ascending ∈ requests (run env h)
       ↔ Supabase.error (env q) = None)
    ∧ (∀ rows,
         Supabase.error (env q) = None →
         env Supabase.select_all_order_created_at_ascending
           = {| Supabase.data := Some rows; Supabase.error := None |} →
         Index.agents (Index.after env h s) = map Index.toAgent rows).
Proof.
  intros Hh Hq Hm.
  assert (∃ post s',
    run env h = awaited q (env q) :: post
    ∧ requests post
      = match Supabase.error (env q) with
        | None => [Supabase.select_all_order_created_at_ascending]
        | Some _ => []
        end
    ∧ (Supabase.error (env q) = None →
       Index.applyAll s (actions post) = Index.after env Index.loadAgents s'))
    as (post & s' & Hrun & Hreq & Hact).
  { destruct Hh as [->|[i ->]].
    - destruct (Spec.firstViolation (Index.form s)) as [m|] eqn:V.
      + unfold Index.addOrUpdateAgent in Hq.
        rewrite (addOrUpdateAgent_invalid _ _ _ V) in Hq. by apply elem_of_nil in Hq.
      + destruct (run_addOrUpdateAgent_valid env s V) as (post & Hrun & Hreq & Hact).
        rewrite Hrun in Hq. cbn [requests] in Hq.
        apply elem_of_cons in Hq as [->|Hq].
        * exists post, (Index.setForm s Page.emptyForm). repeat split; [done..|].
          intros E. by rewrite Hact, E.
        * rewrite Hreq in Hq. destruct (Supabase.error _); [by apply elem_of_nil in Hq|].
          apply list_elem_of_singleton in Hq. by apply mutation_not_select in Hm.
    - destruct (run_removeAgent env i s) as (post & Hrun & Hreq & Hact).
      rewrite Hrun in Hq. cbn [requests] in Hq.
      apply elem_of_cons in Hq as [->|Hq].
      * exists post, s. repeat split; [done..|].
        intros E. by rewrite Hact, E.
      * rewrite Hreq in Hq. destruct (Supabase.error _); [by apply elem_of_nil in Hq|].
        apply list_elem_of_singleton in Hq. by apply mutation_not_select in Hm. }
  exists post. split; [done|]. split; [done|]. split.
  - rewrite Hrun. cbn [requests]. rewrite Hreq. split.
    + intros [E|E]%elem_of_cons; [by apply mutation_not_select in Hm|].
      destruct (Supabase.error _); [by apply elem_of_nil in E|done].
    + intros ->. apply list_elem_of_further, list_elem_of_here.
  - intros rows E Hsel. unfold Index.after at 1. rewrite Hrun. cbn [actions].
    rewrite (Hact E). by apply after_loadAgents_agents.
Qed.

Lemma reload_iff_mutation_resolved_witness :
  let s := {| Index.agents := []; Index.form := Scenario.support |} in
  ∃ post,
    run Scenario.accepting (Index.addOrUpdateAgent s)
      = awaited (Issues.submitted Scenario.support) Scenario.ok :: post
    ∧ requests post = [Supabase.select_all_order_created_at_ascending]
    ∧ Index.agents (Index.after Scenario.accepting (Index.addOrUpdateAgent s) s)
      = [Scenario.agent1].
Proof.
  intros s.
  destruct (reload_iff_mutation_resolved s Scenario.accepting
              (Index.addOrUpdateAgent s) (Issues.submitted Scenario.support))
    as (post & Hrun & Hreq & _ & Hrows).
  - by left.
  - vm_compute. apply list_elem_of_here.
  - reflexivity.
  - exists post. split; [exact Hrun|]. split; [exact Hreq|].
    apply (Hrows [Scenario.row1]); reflexivity.
Defined.

(** ** The controller *)

Arguments Invariant.starts : simpl never.

Lemma filter_delete_length {A} (P : A → Prop) `{∀ x, Decision (P x)} (l : list A) n x :
  l !! n = Some x →
  (length (filter P (delete n l)) + (if decide (P x) then 1 else 0))%nat
  = length (filter P l).
Proof.
  revert n. induction l as [|y l IH]; intros [|n] Hn; try done.
  - injection Hn as ->. simpl. rewrite filter_cons.
    destruct (decide (P x)); simpl; lia.
  - simpl in Hn. specialize (IH n Hn). simpl. rewrite !filter_cons.
    destruct (decide (P y)); simpl; lia.
Qed.

Lemma starts_app l e :
  Invariant.starts (l ++ [e])
  = (Invariant.starts l + if VoiceAgent.isStartSession (fst e) then 1 else 0)%nat.
Proof.
  unfold Invariant.starts. rewrite map_app, filter_app, length_app. simpl.
  rewrite filter_cons, filter_nil.
  destruct (VoiceAgent.isStartSession (fst e)); by case_decide.
Qed.

Lemma starts_delete l n e :
  l !! n = Some e →
  (Invariant.starts (delete n l) + if VoiceAgent.isStartSession (fst e) then 1 else 0)%nat
  = Invariant.starts l.
Proof.
  intros H. unfold Invariant.starts.
  assert (map fst l !! n = Some (fst e)) as H' by (by rewrite list_lookup_fmap, H).
  rewrite <- (filter_delete_length _ _ _ _ H').
  replace (map fst (delete n l)) with (delete n (map fst l)).
  - destruct (VoiceAgent.isStartSession (fst e)); by case_decide.
  - clear. revert n. induction l as [|x l IH]; intros [|n]; simpl; try done.
    by rewrite IH.
Qed.

Lemma apply_toast s t : VoiceAgent.apply s (VoiceAgent.toast t) = s.
Proof. unfold VoiceAgent.apply. by destruct (VoiceAgent.mounted s). Qed.

Lemma apply_console_log s l : VoiceAgent.apply s (VoiceAgent.console_log l) = s.
Proof. unfold VoiceAgent.apply. by destruct (VoiceAgent.mounted s). Qed.

Lemma apply_console_error s l : VoiceAgent.apply s (VoiceAgent.console_error l) = s.
Proof. unfold VoiceAgent.apply. by destruct (VoiceAgent.mounted s). Qed.

Lemma apply_unmounted s a : VoiceAgent.mounted s = false → VoiceAgent.apply s a = s.
Proof. intros M. unfold VoiceAgent.apply. by rewrite M. Qed.

Lemma apply_setIsInitializing s v :
  VoiceAgent.mounted s = true →
  VoiceAgent.apply s (VoiceAgent.setIsInitializing v) =
  {| VoiceAgent.isPermissionGranted := VoiceAgent.isPermissionGranted s;
     VoiceAgent.isInitializing := v;
     VoiceAgent.conversation := VoiceAgent.conversation s;
     VoiceAgent.cleanupConversation := VoiceAgent.cleanupConversation s;
     VoiceAgent.mounted := true |}.
Proof. intros M. unfold VoiceAgent.apply. by rewrite M. Qed.

Lemma apply_setIsPermissionGranted s v :
  VoiceAgent.mounted s = true →
  VoiceAgent.apply s (VoiceAgent.setIsPermissionGranted v) =
  {| VoiceAgent.isPermissionGranted := v;
     VoiceAgent.isInitializing := VoiceAgent.isInitializing s;
     VoiceAgent.conversation := VoiceAgent.conversation s;
     VoiceAgent.cleanupConversation := VoiceAgent.cleanupConversation s;
     VoiceAgent.mounted := true |}.
Proof. intros M. unfold VoiceAgent.apply. by rewrite M. Qed.

Ltac cells :=
  cbn -[VoiceAgent.apply];
  repeat match goal with
    | |- context [VoiceAgent.apply ?s (VoiceAgent.toast ?t)] =>
        rewrite (apply_toast s t)
    | |- context [VoiceAgent.apply ?s (VoiceAgent.console_log ?l)] =>
        rewrite (apply_console_log s l)
    | |- context [VoiceAgent.apply ?s (VoiceAgent.console_error ?l)] =>
        rewrite (apply_console_error s l)
    | |- context [VoiceAgent.apply ?s ?a] =>
        first [ rewrite (apply_unmounted s a) by done
              | rewrite (apply_setIsInitializing s) by done
              | rewrite (apply_setIsPermissionGranted s) by done ]
    end;
  cbn -[VoiceAgent.apply].

(** A step that neither touches the two cells nor the suspended handlers. *)
Lemma holds_same_cells (c c' : VoiceAgent.Config) :
  Invariant.holds c →
  EventLoop.pending c' = EventLoop.pending c →
  VoiceAgent.isInitializing (EventLoop.state c') = VoiceAgent.isInitializing (EventLoop.state c) →
  VoiceAgent.isPermissionGranted (EventLoop.state c')
    = VoiceAgent.isPermissionGranted (EventLoop.state c) →
  Invariant.holds c'.
Proof.
  intros [H1 H2 H3 H4] Hp Hi Hg.
  split; unfold Invariant.startsInFlight in *; rewrite ?Hp, ?Hi, ?Hg; done.
Qed.

Lemma step_holds p (c : VoiceAgent.Config) i :
  Invariant.holds c → Invariant.holds (fst (VoiceAgent.step p c i)).
Proof.
  intros Hc. destruct c as [s pend].
  destruct i as [| | | | | |conv|n r|]; cbn [VoiceAgent.step EventLoop.state].
  - (* click_start *)
    destruct (VoiceAgent.mounted s) eqn:M; [|done].
    unfold VoiceAgent.button. destruct (negb (VoiceAgent.isConnected _)); [|done].
    destruct (VoiceAgent.isInitializing s) eqn:I; [done|].
    unfold VoiceAgent.startConversation.
    destruct Hc as [H1 H2 H3 H4]. unfold Invariant.startsInFlight in *. cbn in *.
    destruct (VoiceAgent.isPermissionGranted s) eqn:G; cells.
    + assert (Invariant.starts pend = 0%nat) as Z.
      { destruct (decide (Invariant.starts pend = 1%nat)) as [E1|]; [|lia].
        specialize (H3 E1). congruence. }
      split; unfold Invariant.startsInFlight; cbn; rewrite ?starts_app, ?Z; cbn; try done.
      * apply Forall_app. split; [done|]. by apply Forall_singleton.
      * by rewrite G.
    + split; unfold Invariant.startsInFlight; cbn; rewrite ?starts_app; cbn;
        rewrite ?Nat.add_0_r; try done; try (intros _; by apply H4).
      apply Forall_app. split; [done|]. by apply Forall_singleton.
  - (* click_end *)
    destruct (VoiceAgent.mounted s) eqn:M; [|done].
    destruct (VoiceAgent.button s); [done|]. cbn.
    destruct Hc as [H1 H2 H3 H4]. unfold Invariant.startsInFlight in *. cbn in *.
    split; unfold Invariant.startsInFlight; cbn; rewrite ?starts_app; cbn;
      rewrite ?Nat.add_0_r; try done.
    apply Forall_app. split; [done|]. by apply Forall_singleton.
  - cells. by apply (holds_same_cells _ _ Hc).
  - cells. by apply (holds_same_cells _ _ Hc).
  - cells. by apply (holds_same_cells _ _ Hc).
  - cells. by apply (holds_same_cells _ _ Hc).
  - destruct (VoiceAgent.mounted s); [|done]. by apply (holds_same_cells _ _ Hc).
  - (* settle *)
    unfold EventLoop.settle. cbn [EventLoop.pending EventLoop.state].
    destruct (pend !! n) as [[q k]|] eqn:E; [|done].
    destruct Hc as [H1 H2 H3 H4]. unfold Invariant.startsInFlight in *. cbn in *.
    pose proof (Forall_lookup_1 _ _ _ _ H1 E) as K.
    pose proof (starts_delete _ _ _ E) as D. cbn in D.
    pose proof (Forall_delete _ _ n H1) as F.
    unfold Invariant.known in K. cbn in K.
    destruct q as [|a t|]; rewrite K; cbn in D; rewrite ?Nat.add_0_r in D.
    + destruct r, (VoiceAgent.mounted s) eqn:M; cells;
        (split; unfold Invariant.startsInFlight; cbn; rewrite ?D; done).
    + destruct r, (VoiceAgent.mounted s) eqn:M; cells;
        (split; unfold Invariant.startsInFlight; cbn; try done; try lia);
        try (intros G; destruct (H4 G); lia).
    + cells. split; unfold Invariant.startsInFlight; cbn; rewrite ?D; done.
  - (* unmount *)
    destruct (VoiceAgent.mounted s) eqn:M; [|done].
    unfold VoiceAgent.cleanup. destruct (VoiceAgent.isConnected _); cbn.
    + destruct Hc as [H1 H2 H3 H4]. unfold Invariant.startsInFlight in *. cbn in *.
      split; unfold Invariant.startsInFlight; cbn; rewrite ?starts_app; cbn;
        rewrite ?Nat.add_0_r; try done.
      apply Forall_app. split; [done|]. by apply Forall_singleton.
    + by apply (holds_same_cells _ _ Hc).
Qed.

Lemma reachable_holds p c0 c : VoiceAgent.reachable p c0 c → Invariant.holds c.
Proof.
  induction 1 as [|c i _ IH]; [|by apply step_holds].
  split; cbn; try done. by constructor.
Qed.

Lemma reachable_steps p c0 c l :
  VoiceAgent.reachable p c0 c → VoiceAgent.reachable p c0 (fst (VoiceAgent.steps p c l)).
Proof.
  revert c. induction l as [|i l IH]; intros c H; [done|].
  cbn [VoiceAgent.steps].
  pose proof (VoiceAgent.reachable_step p c0 c i H) as H1.
  destruct (VoiceAgent.step p c i) as [c1 o1]. specialize (IH c1 H1).
  by destruct (VoiceAgent.steps p c1 l).
Qed.

(** The handler of a Start click without permission, as a trace. *)
Lemma run_startConversation_not_granted p s env :
  VoiceAgent.isPermissionGranted s = false →
  run env (VoiceAgent.startConversation p s) =
  awaited VoiceAgent.getUserMedia_audio (env VoiceAgent.getUserMedia_audio)
  :: run env (andThen (VoiceAgent.afterGetUserMedia (env VoiceAgent.getUserMedia_audio)) done).
Proof. intros G. unfold VoiceAgent.startConversation. by rewrite G. Qed.

Lemma run_startConversation_granted p s env :
  VoiceAgent.isPermissionGranted s = true →
  run env (VoiceAgent.startConversation p s) =
  did (VoiceAgent.setIsInitializing true)
  :: awaited (VoiceAgent.startSession (VoiceAgent.agentId p) (js "webrtc"))
       (env (VoiceAgent.startSession (VoiceAgent.agentId p) (js "webrtc")))
  :: run env (VoiceAgent.afterStartSession
                (env (VoiceAgent.startSession (VoiceAgent.agentId p) (js "webrtc")))).
Proof. intros G. unfold VoiceAgent.startConversation. by rewrite G. Qed.

(** C2. A Start click on a controller without microphone permission never
    makes it initializing: the controller is not initializing, the click
    leaves its state as it is and requests the microphone only, the handler
    never sets [isInitializing] and never calls [startSession], and it ends
    with the controller not initializing.  When the permission is granted
    the cell is set, and it takes another click to call [startSession]. *)
Theorem start_without_permission p c0 c env :
  VoiceAgent.reachable p c0 c →
  let s := EventLoop.state c in
  VoiceAgent.isPermissionGranted s = false →
  let h := VoiceAgent.startConversation p s in
  let s' := VoiceAgent.after env h s in
  VoiceAgent.isInitializing s = false
  ∧ EventLoop.state (fst (VoiceAgent.step p c VoiceAgent.click_start)) = s
  ∧ (∀ q, EventLoop.requested q ∈ snd (VoiceAgent.step p c VoiceAgent.click_start) →
          q = VoiceAgent.getUserMedia_audio)
  ∧ requests (run env h) = [VoiceAgent.getUserMedia_audio]
  ∧ (∀ v, VoiceAgent.setIsInitializing v ∉ actions (run env h))
  ∧ VoiceAgent.isInitializing s' = false
  ∧ (env VoiceAgent.getUserMedia_audio = VoiceAgent.rejected →
     VoiceAgent.isPermissionGranted s' = false)
  ∧ (env VoiceAgent.getUserMedia_audio = VoiceAgent.fulfilled →
     VoiceAgent.mounted s = true →
     VoiceAgent.isPermissionGranted s' = true
     ∧ requests (run env (VoiceAgent.startConversation p s'))
       = [VoiceAgent.startSession (VoiceAgent.agentId p) (js "webrtc")]).
Proof.
  intros R s G h s'.
  destruct (Invariant.start_granted _ (reachable_holds _ _ _ R) G) as [I _].
  fold s in I. subst h s'. unfold VoiceAgent.after.
  rewrite (run_startConversation_not_granted _ _ _ G).
  split; [done|]. split; [|split].
  - destruct c as [s0 pend]. cbn in *. subst s.
    destruct (VoiceAgent.mounted s0); [|done]. destruct (VoiceAgent.button s0) as [[]|]; try done.
    unfold VoiceAgent.startConversation. by rewrite G.
  - intros q. destruct c as [s0 pend]. cbn in *. subst s.
    destruct (VoiceAgent.mounted s0); [|by intros ?%elem_of_nil].
    destruct (VoiceAgent.button s0) as [[]|]; try by intros ?%elem_of_nil.
    unfold VoiceAgent.startConversation. rewrite G. cbn.
    by intros [= ->]%list_elem_of_singleton.
  - destruct (env VoiceAgent.getUserMedia_audio); cbn -[VoiceAgent.apply];
      unfold VoiceAgent.applyAll; cells.
    + split; [done|]. split.
      { intros v [[=]|[[=]|[]%elem_of_nil]%elem_of_cons]%elem_of_cons. }
      destruct (VoiceAgent.mounted s) eqn:M; cells; rewrite ?I; (split; [done|]).
      * split; [done|]. intros _ _. split; [done|].
        by destruct (env (VoiceAgent.startSession _ _)).
      * split; [done|]. done.
    + split; [done|]. split.
      { intros v [[=]|[[=]|[]%elem_of_nil]%elem_of_cons]%elem_of_cons. }
      done.
Qed.

Lemma start_without_permission_witness :
  let c := VoiceAgent.init Scenario.disconnected in
  let s := EventLoop.state c in
  snd (VoiceAgent.step Scenario.props c VoiceAgent.click_start)
    = [EventLoop.requested VoiceAgent.getUserMedia_audio]
  ∧ VoiceAgent.isInitializing
      (VoiceAgent.after Scenario.allow (VoiceAgent.startConversation Scenario.props s) s) = false
  ∧ requests (run Scenario.allow (VoiceAgent.startConversation Scenario.props s))
    = [VoiceAgent.getUserMedia_audio].
Proof.
  intros c s. split; [reflexivity|].
  pose proof (start_without_permission Scenario.props Scenario.disconnected c Scenario.allow
                (VoiceAgent.reachable_init _ _) eq_refl) as H.
  split; [apply H|apply H].
Defined.

(** The conversation the cleanup closed over is the one of the first
    render, whatever was rendered since. *)
Lemma apply_cleanupConversation s a :
  VoiceAgent.cleanupConversation (VoiceAgent.apply s a) = VoiceAgent.cleanupConversation s.
Proof. unfold VoiceAgent.apply. by destruct (negb (VoiceAgent.mounted s)), a. Qed.

Lemma applyAll_cleanupConversation s l :
  VoiceAgent.cleanupConversation (foldl VoiceAgent.apply s l)
  = VoiceAgent.cleanupConversation s.
Proof.
  revert s. induction l as [|a l IH]; intros s; [done|].
  simpl. by rewrite IH, apply_cleanupConversation.
Qed.

Lemma spawn_cleanupConversation (c : VoiceAgent.Config) h :
  VoiceAgent.cleanupConversation (EventLoop.state (fst (EventLoop.spawn VoiceAgent.apply c h)))
  = VoiceAgent.cleanupConversation (EventLoop.state c).
Proof.
  unfold EventLoop.spawn. destruct (advance h) as [acts [e|]]; cbn;
    apply applyAll_cleanupConversation.
Qed.

Lemma step_cleanupConversation p (c : VoiceAgent.Config) i :
  VoiceAgent.cleanupConversation (EventLoop.state (fst (VoiceAgent.step p c i)))
  = VoiceAgent.cleanupConversation (EventLoop.state c).
Proof.
  destruct i; cbn [VoiceAgent.step]; rewrite ?spawn_cleanupConversation; try done.
  - destruct (VoiceAgent.mounted _); [|done].
    destruct (VoiceAgent.button _) as [[]|]; by rewrite ?spawn_cleanupConversation.
  - destruct (VoiceAgent.mounted _); [|done].
    destruct (VoiceAgent.button _) as [[]|]; by rewrite ?spawn_cleanupConversation.
  - by destruct (VoiceAgent.mounted _).
  - unfold EventLoop.settle. destruct (_ !! _); [|done].
    by rewrite spawn_cleanupConversation.
  - destruct (VoiceAgent.mounted _); [|done]. by rewrite spawn_cleanupConversation.
Qed.

Lemma reachable_cleanupConversation p c0 c :
  VoiceAgent.reachable p c0 c →
  VoiceAgent.cleanupConversation (EventLoop.state c) = c0.
Proof.
  induction 1 as [|c i _ IH]; [done|]. by rewrite step_cleanupConversation.
Qed.

(** C3 (as the code has it).  The cleanup of the mount effect tests the
    [status] of the conversation of the first render: on unmount
    [endSession] is called when that first status was ["connected"], and is
    not called otherwise, whatever the status is at the time of the
    unmount. *)
Theorem unmount_cleanup_tests_first_render p c0 c :
  VoiceAgent.reachable p c0 c →
  VoiceAgent.mounted (EventLoop.state c) = true →
  EventLoop.issuedRequests (snd (VoiceAgent.step p c VoiceAgent.unmount))
  = if VoiceAgent.isConnected c0 then [VoiceAgent.endSession] else [].
Proof.
  intros R M. cbn [VoiceAgent.step]. rewrite M.
  unfold VoiceAgent.cleanup. rewrite (reachable_cleanupConversation _ _ _ R).
  by destruct (VoiceAgent.isConnected c0).
Qed.

(** A controller that is mounted disconnected, is granted the microphone,
    starts a session, gets connected and is then unmounted: the status is
    ["connected"] at the unmount and the cleanup calls nothing. *)
Lemma unmount_cleanup_tests_first_render_witness :
  let c := fst (VoiceAgent.steps Scenario.props (VoiceAgent.init Scenario.disconnected)
                  [ VoiceAgent.click_start; VoiceAgent.settle 0 VoiceAgent.fulfilled;
                    VoiceAgent.click_start; VoiceAgent.sdk_update Scenario.connecting;
                    VoiceAgent.sdk_update Scenario.connected; VoiceAgent.sdk_onConnect;
                    VoiceAgent.settle 0 VoiceAgent.fulfilled ]) in
  VoiceAgent.isConnected (VoiceAgent.conversation (EventLoop.state c)) = true
  ∧ VoiceAgent.button (EventLoop.state c) = VoiceAgent.EndConversation
  ∧ EventLoop.inFlight c = []
  ∧ EventLoop.issuedRequests (snd (VoiceAgent.step Scenario.props c VoiceAgent.unmount)) = [].
Proof.
  intros c. split; [by vm_compute|]. split; [by vm_compute|]. split; [by vm_compute|].
  apply (unmount_cleanup_tests_first_render Scenario.props Scenario.disconnected c).
  - apply reachable_steps, VoiceAgent.reachable_init.
  - by vm_compute.
Defined.

(** ** Notifications *)

Lemma inFlight_lookup (c : VoiceAgent.Config) n :
  EventLoop.inFlight c !! n = fst <$> EventLoop.pending c !! n.
Proof. unfold EventLoop.inFlight. apply list_lookup_fmap. Qed.

Lemma toasts_step p c0 c i :
  VoiceAgent.reachable p c0 c →
  title <$> VoiceAgent.toasts (snd (VoiceAgent.step p c i))
  = option_list (Spec.notification c i).
Proof.
  intros R. pose proof (Invariant.pending_known _ (reachable_holds _ _ _ R)) as K.
  destruct c as [s pend]. destruct i as [| | | | | |conv|n r|]; cbn [VoiceAgent.step EventLoop.state Spec.notification].
  - destruct (VoiceAgent.mounted s); [|done].
    destruct (VoiceAgent.button s) as [[]|]; try done.
    unfold VoiceAgent.startConversation. by destruct (negb _).
  - destruct (VoiceAgent.mounted s); [|done].
    by destruct (VoiceAgent.button s) as [[]|].
  - done.
  - done.
  - done.
  - done.
  - by destruct (VoiceAgent.mounted s).
  - rewrite inFlight_lookup. unfold EventLoop.settle. cbn [EventLoop.pending EventLoop.state] in *.
    destruct (pend !! n) as [[q k]|] eqn:E; [|done].
    pose proof (Forall_lookup_1 _ _ _ _ K E) as Kq. unfold Invariant.known in Kq. cbn in Kq.
    cbn [fmap option_fmap option_map fst snd].
    destruct q; rewrite Kq; by destruct r.
  - destruct (VoiceAgent.mounted s); [|done].
    unfold VoiceAgent.cleanup. by destruct (VoiceAgent.isConnected _).
Qed.

(** C6 fails as stated.  The Start button is not disabled while a request
    for the microphone is pending: after two Start clicks two requests are
    in flight.  When both are granted, each grant shows "Microphone Access
    Granted"; the second one finds the permission already set and leaves
    the state of the controller as it is.  So the same notification is
    shown twice in a row while the controller remains in the same state. *)
Lemma grant_notification_repeated_in_same_state :
  let c := fst (VoiceAgent.steps Scenario.props (VoiceAgent.init Scenario.disconnected)
                  [ VoiceAgent.click_start; VoiceAgent.click_start ]) in
  let granted := {| title := js "Microphone Access Granted";
                    description := js "You can now start a conversation";
                    destructive := false |} in
  let r1 := VoiceAgent.step Scenario.props c (VoiceAgent.settle 0 VoiceAgent.fulfilled) in
  let r2 := VoiceAgent.step Scenario.props (fst r1) (VoiceAgent.settle 0 VoiceAgent.fulfilled) in
  VoiceAgent.reachable Scenario.props Scenario.disconnected c
  ∧ EventLoop.inFlight c = [VoiceAgent.getUserMedia_audio; VoiceAgent.getUserMedia_audio]
  ∧ VoiceAgent.toasts (snd r1) = [granted]
  ∧ VoiceAgent.toasts (snd r2) = [granted]
  ∧ EventLoop.state (fst r2) = EventLoop.state (fst r1)
  ∧ ¬ (∀ p c0 c' i j,
         VoiceAgent.reachable p c0 c' →
         let s1 := VoiceAgent.step p c' i in
         let s2 := VoiceAgent.step p (fst s1) j in
         VoiceAgent.toasts (snd s1) ≠ [] →
         VoiceAgent.toasts (snd s2) = VoiceAgent.toasts (snd s1) →
         EventLoop.state (fst s2) ≠ EventLoop.state (fst s1)).
Proof.
  intros c granted r1 r2.
  assert (VoiceAgent.reachable Scenario.props Scenario.disconnected c) as R
    by apply reachable_steps, VoiceAgent.reachable_init.
  split; [done|]. split; [reflexivity|]. split; [reflexivity|].
  split; [reflexivity|]. split; [reflexivity|].
  intros H.
  apply (H Scenario.props Scenario.disconnected c
           (VoiceAgent.settle 0 VoiceAgent.fulfilled)
           (VoiceAgent.settle 0 VoiceAgent.fulfilled) R); [done|reflexivity|reflexivity].
Qed.

(** C6 (amended).  Notifications go with events, not with states.  Each
    event that the specification names shows its one toast when it occurs,
    and no other step shows any: the titles of the toasts of a step are the
    title of the notification of that step, if it has one.  A session start
    that fails shows one toast, ["Failed to Start"], in the whole run of
    its handler. *)
Theorem one_notification_per_transition p c0 c i env :
  VoiceAgent.reachable p c0 c →
  let out := snd (VoiceAgent.step p c i) in
  title <$> VoiceAgent.toasts out = option_list (Spec.notification c i)
  ∧ (length (VoiceAgent.toasts out) ≤ 1)%nat
  ∧ (Spec.notification c i = None → VoiceAgent.toasts out = [])
  ∧ (VoiceAgent.isPermissionGranted (EventLoop.state c) = true →
     env (VoiceAgent.startSession (VoiceAgent.agentId p) (js "webrtc")) = VoiceAgent.rejected →
     Spec.voiceToasts (run env (VoiceAgent.startConversation p (EventLoop.state c)))
     = [{| title := js "Failed to Start";
           description := js "Could not connect to the agent";
           destructive := true |}]).
Proof.
  intros R out. pose proof (toasts_step p c0 c i R) as H. fold out in H.
  split; [done|]. split; [|split].
  - rewrite <- (length_fmap title), H. destruct (Spec.notification c i); simpl; lia.
  - intros N. rewrite N in H. by destruct (VoiceAgent.toasts out).
  - intros G E. rewrite (run_startConversation_granted _ _ _ G), E. done.
Qed.

Lemma one_notification_per_transition_witness :
  let c := fst (VoiceAgent.steps Scenario.props (VoiceAgent.init Scenario.disconnected)
                  [ VoiceAgent.click_start; VoiceAgent.settle 0 VoiceAgent.fulfilled;
                    VoiceAgent.click_start ]) in
  title <$> VoiceAgent.toasts
              (snd (VoiceAgent.step Scenario.props c (VoiceAgent.settle 0 VoiceAgent.rejected)))
    = [js "Failed to Start"]
  ∧ VoiceAgent.toasts (snd (VoiceAgent.step Scenario.props c VoiceAgent.sdk_onMessage)) = []
  ∧ Spec.voiceToasts (run Scenario.refuse
        (VoiceAgent.startConversation Scenario.props (EventLoop.state c)))
    = [{| title := js "Failed to Start";
          description := js "Could not connect to the agent";
          destructive := true |}].
Proof.
  intros c.
  assert (VoiceAgent.reachable Scenario.props Scenario.disconnected c) as R
    by apply reachable_steps, VoiceAgent.reachable_init.
  split; [|split].
  - apply (one_notification_per_transition _ _ c
             (VoiceAgent.settle 0 VoiceAgent.rejected) Scenario.refuse R).
  - apply (one_notification_per_transition _ _ c VoiceAgent.sdk_onMessage Scenario.refuse R).
    reflexivity.
  - apply (one_notification_per_transition _ _ c VoiceAgent.sdk_onMessage Scenario.refuse R);
      reflexivity.
Defined.

(** ** The permission cell *)

Lemma step_permission p (c : VoiceAgent.Config) i :
  Invariant.holds c →
  VoiceAgent.isPermissionGranted (EventLoop.state c) = true →
  VoiceAgent.isPermissionGranted (EventLoop.state (fst (VoiceAgent.step p c i))) = true.
Proof.
  intros [K _ _ _] G. destruct c as [s pend]. cbn in G, K.
  destruct i as [| | | | | |conv|n r|]; cbn [VoiceAgent.step EventLoop.state].
  - destruct (VoiceAgent.mounted s) eqn:M; [|done].
    destruct (VoiceAgent.button s) as [[]|]; try done.
    unfold VoiceAgent.startConversation. rewrite G. by cells.
  - destruct (VoiceAgent.mounted s) eqn:M; [|done].
    by destruct (VoiceAgent.button s) as [[]|].
  - by cells.
  - by cells.
  - by cells.
  - by cells.
  - by destruct (VoiceAgent.mounted s).
  - unfold EventLoop.settle. cbn [EventLoop.pending EventLoop.state].
    destruct (pend !! n) as [[q k]|] eqn:E; [|done].
    pose proof (Forall_lookup_1 _ _ _ _ K E) as Kq. unfold Invariant.known in Kq. cbn in Kq.
    cbn [snd].
    destruct q; rewrite Kq; destruct r, (VoiceAgent.mounted s) eqn:M; by cells.
  - destruct (VoiceAgent.mounted s) eqn:M; [|done].
    unfold VoiceAgent.cleanup. by destruct (VoiceAgent.isConnected _).
Qed.

Lemma steps_permission p (c : VoiceAgent.Config) l :
  Invariant.holds c →
  VoiceAgent.isPermissionGranted (EventLoop.state c) = true →
  VoiceAgent.isPermissionGranted (EventLoop.state (fst (VoiceAgent.steps p c l))) = true.
Proof.
  revert c. induction l as [|i l IH]; intros c H G; [done|].
  cbn [VoiceAgent.steps].
  pose proof (step_holds p c i H) as H1. pose proof (step_permission p c i H G) as G1.
  destruct (VoiceAgent.step p c i) as [c1 o1]. specialize (IH c1 H1 G1).
  by destruct (VoiceAgent.steps p c1 l).
Qed.

(** C10. The permission cell belongs to one controller and is never reset:
    once it is true it is true after any sequence of steps of that
    controller, and a Start click then calls [startSession] and does not ask
    for the microphone again.  A step of one card leaves every other card
    as it is, and a card that is mounted starts without the permission. *)
Theorem permission_kept_per_card p c0 c l :
  VoiceAgent.reachable p c0 c →
  VoiceAgent.isPermissionGranted (EventLoop.state c) = true →
  let c' := fst (VoiceAgent.steps p c l) in
  VoiceAgent.isPermissionGranted (EventLoop.state c') = true
  ∧ (∀ q, EventLoop.requested q ∈ snd (VoiceAgent.step p c' VoiceAgent.click_start) →
          q = VoiceAgent.startSession (VoiceAgent.agentId p) (js "webrtc"))
  ∧ (VoiceAgent.mounted (EventLoop.state c') = true →
     VoiceAgent.button (EventLoop.state c') = VoiceAgent.StartConversation false →
     snd (VoiceAgent.step p c' VoiceAgent.click_start)
     = [EventLoop.performed (VoiceAgent.setIsInitializing true);
        EventLoop.requested (VoiceAgent.startSession (VoiceAgent.agentId p) (js "webrtc"))])
  ∧ (∀ p' (cards : gmap jsstring VoiceAgent.Config) k k' i,
       k ≠ k' → Cards.stepCard p' cards k i !! k' = cards !! k')
  ∧ (∀ (cards : gmap jsstring VoiceAgent.Config) k conv,
       VoiceAgent.isPermissionGranted ∘ EventLoop.state <$> Cards.mountCard cards k conv !! k
       = Some false).
Proof.
  intros R G c'.
  pose proof (steps_permission p c l (reachable_holds _ _ _ R) G) as G'. fold c' in G'.
  split; [done|]. split; [|split; [|split]].
  - intros q. destruct c' as [s pend]. cbn in G'. cbn [VoiceAgent.step EventLoop.state].
    destruct (VoiceAgent.mounted s); [|by intros []%elem_of_nil].
    destruct (VoiceAgent.button s) as [[]|]; try by intros []%elem_of_nil.
    unfold VoiceAgent.startConversation. rewrite G'. cbn.
    intros [[=]|[[= ->]|[]%elem_of_nil]%elem_of_cons]%elem_of_cons. done.
  - intros M B. destruct c' as [s pend]. cbn in *. rewrite M, B.
    unfold VoiceAgent.startConversation. by rewrite G'.
  - intros p' cards k k' i Hk. unfold Cards.stepCard.
    destruct (cards !! k); [|done]. by rewrite lookup_insert_ne.
  - intros cards k conv. unfold Cards.mountCard. by rewrite lookup_insert_eq.
Qed.

Lemma permission_kept_per_card_witness :
  let c := fst (VoiceAgent.steps Scenario.props (VoiceAgent.init Scenario.disconnected)
                  [ VoiceAgent.click_start; VoiceAgent.settle 0 VoiceAgent.fulfilled ]) in
  let c' := fst (VoiceAgent.steps Scenario.props c
                  [ VoiceAgent.click_start; VoiceAgent.sdk_onError;
                    VoiceAgent.settle 0 VoiceAgent.rejected;
                    VoiceAgent.click_start; VoiceAgent.sdk_update Scenario.connected;
                    VoiceAgent.settle 0 VoiceAgent.fulfilled; VoiceAgent.click_end;
                    VoiceAgent.sdk_update Scenario.disconnected;
                    VoiceAgent.settle 0 VoiceAgent.fulfilled ]) in
  VoiceAgent.isPermissionGranted (EventLoop.state c') = true
  ∧ snd (VoiceAgent.step Scenario.props c' VoiceAgent.click_start)
    = [EventLoop.performed (VoiceAgent.setIsInitializing true);
       EventLoop.requested (VoiceAgent.startSession (js "agent_123") (js "webrtc"))].
Proof.
  intros c c'.
  assert (VoiceAgent.reachable Scenario.props Scenario.disconnected c) as R
    by apply reachable_steps, VoiceAgent.reachable_init.
  destruct (permission_kept_per_card Scenario.props Scenario.disconnected c
              [ VoiceAgent.click_start; VoiceAgent.sdk_onError;
                VoiceAgent.settle 0 VoiceAgent.rejected;
                VoiceAgent.click_start; VoiceAgent.sdk_update Scenario.connected;
                VoiceAgent.settle 0 VoiceAgent.fulfilled; VoiceAgent.click_end;
                VoiceAgent.sdk_update Scenario.disconnected;
                VoiceAgent.settle 0 VoiceAgent.fulfilled ] R eq_refl)
    as (H1 & _ & H3 & _).
  split; [exact H1|]. apply H3; by vm_compute.
Defined.

(** ** Triggers while a handler is suspended *)

Lemma page_reachable_steps agents c l :
  Page.reachable agents c → Page.reachable agents (Page.steps c l).
Proof.
  revert c. induction l as [|i l IH]; intros c H; [done|].
  apply IH. by apply Page.reachable_step.
Qed.

(** C7 fails for the panel.  The submit button has no [disabled]
    attribute: after a first click has sent an insert that is still
    awaited, a second click sends another one, and two mutations are in
    flight. *)
Lemma submit_twice_two_mutations_in_flight :
  let c := Page.steps (Page.init [])
             [ Page.type_name (js "Support"); Page.type_id (js "agent_123");
               Page.click_submit; Page.click_submit ] in
  let v := {| Supabase.v_name := js "Support"; Supabase.v_agent_id := js "agent_123";
              Supabase.v_bio := None; Supabase.v_llm := None |} in
  Page.reachable [] c
  ∧ Page.mutationsInFlight c = [Supabase.insert v; Supabase.insert v]
  ∧ AgentConfig.submitDisabled (Index.form (EventLoop.state c)) = false
  ∧ ¬ (∀ agents c', Page.reachable agents c' → (length (Page.mutationsInFlight c') ≤ 1)%nat).
Proof.
  intros c v.
  assert (Page.reachable [] c) as R by apply page_reachable_steps, Page.reachable_init.
  assert (Page.mutationsInFlight c = [Supabase.insert v; Supabase.insert v]) as E
    by by vm_compute.
  split; [done|]. split; [done|]. split; [done|].
  intros H. specialize (H [] c R). rewrite E in H. simpl in H. lia.
Qed.

(** C7 (amended).  The connect control is guarded while the session start
    is awaited: at most one [startSession] is in flight in a controller,
    and while one is, [isInitializing] is true and a click on Start does
    nothing.  The submit button of the panel is never disabled. *)
Theorem start_guarded_while_initializing p c0 c :
  VoiceAgent.reachable p c0 c →
  (Invariant.startsInFlight c ≤ 1)%nat
  ∧ (Invariant.startsInFlight c = 1%nat →
     VoiceAgent.isInitializing (EventLoop.state c) = true
     ∧ VoiceAgent.button (EventLoop.state c) ≠ VoiceAgent.StartConversation false
     ∧ VoiceAgent.step p c VoiceAgent.click_start = (c, []))
  ∧ (∀ f, AgentConfig.submitDisabled f = false).
Proof.
  intros R. destruct (reachable_holds _ _ _ R) as [_ H2 H3 _].
  split; [done|]. split; [|done].
  intros E. specialize (H3 E). split; [done|].
  destruct c as [s pend]. cbn in *. unfold VoiceAgent.button. rewrite H3.
  destruct (VoiceAgent.mounted s), (negb _); done.
Qed.

Lemma start_guarded_while_initializing_witness :
  let c := fst (VoiceAgent.steps Scenario.props (VoiceAgent.init Scenario.disconnected)
                  [ VoiceAgent.click_start; VoiceAgent.settle 0 VoiceAgent.fulfilled;
                    VoiceAgent.click_start ]) in
  EventLoop.inFlight c = [VoiceAgent.startSession (js "agent_123") (js "webrtc")]
  ∧ VoiceAgent.step Scenario.props c VoiceAgent.click_start = (c, []).
Proof.
  intros c. split; [by vm_compute|].
  apply (start_guarded_while_initializing Scenario.props Scenario.disconnected c).
  - apply reachable_steps, VoiceAgent.reachable_init.
  - by vm_compute.
Defined.

(** ** After an error *)

Lemma after_invalid env s m :
  Spec.firstViolation (Index.form s) = Some m →
  Index.after env (Index.addOrUpdateAgent s) s = s.
Proof.
  intros V. unfold Index.after, Index.addOrUpdateAgent.
  by rewrite (addOrUpdateAgent_invalid _ _ _ V).
Qed.

Lemma after_addOrUpdateAgent_valid env s :
  Spec.firstViolation (Index.form s) = None →
  Index.after env (Index.addOrUpdateAgent s) s
  = match Supabase.error (env (Issues.submitted (Index.form s))) with
    | None => Index.after env Index.loadAgents (Index.setForm s Page.emptyForm)
    | Some _ => s
    end.
Proof.
  intros V. destruct (run_addOrUpdateAgent_valid env s V) as (post & Hrun & _ & Hact).
  unfold Index.after at 1. by rewrite Hrun.
Qed.

Lemma after_removeAgent env s i :
  Index.after env (Index.removeAgent i) s
  = match Supabase.error (env (Supabase.delete_eq_id i)) with
    | None => Index.after env Index.loadAgents s
    | Some _ => s
    end.
Proof.
  destruct (run_removeAgent env i s) as (post & Hrun & _ & Hact).
  unfold Index.after at 1. by rewrite Hrun.
Qed.

(** C5. After an error the interface is where it was.  A submission that
    fails validation, or whose mutation the store refuses, leaves the form,
    the edit flag and the registry snapshot as they were, and the mutation
    was sent at most once; a refused delete likewise.  The form is cleared
    when the mutation succeeds.  A session start that fails leaves the
    controller not initializing, its other cells as they were, after one
    call of [startSession]. *)
Theorem stable_state_after_error s env p v :
  (∀ m, Spec.firstViolation (Index.form s) = Some m →
        Index.after env (Index.addOrUpdateAgent s) s = s
        ∧ requests (run env (Index.addOrUpdateAgent s)) = [])
  ∧ (Spec.firstViolation (Index.form s) = None →
     (Supabase.error (env (Issues.submitted (Index.form s))) ≠ None →
        Index.after env (Index.addOrUpdateAgent s) s = s
        ∧ requests (run env (Index.addOrUpdateAgent s)) = [Issues.submitted (Index.form s)])
     ∧ (Supabase.error (env (Issues.submitted (Index.form s))) = None →
        Index.form (Index.after env (Index.addOrUpdateAgent s) s) = Page.emptyForm))
  ∧ (∀ i, Supabase.error (env (Supabase.delete_eq_id i)) ≠ None →
        Index.after env (Index.removeAgent i) s = s
        ∧ requests (run env (Index.removeAgent i)) = [Supabase.delete_eq_id i])
  ∧ (∀ envV,
       VoiceAgent.isPermissionGranted v = true →
       VoiceAgent.mounted v = true →
       envV (VoiceAgent.startSession (VoiceAgent.agentId p) (js "webrtc")) = VoiceAgent.rejected →
       let v' := VoiceAgent.after envV (VoiceAgent.startConversation p v) v in
       VoiceAgent.isInitializing v' = false
       ∧ VoiceAgent.isPermissionGranted v' = true
       ∧ VoiceAgent.conversation v' = VoiceAgent.conversation v
       ∧ (VoiceAgent.isConnected (VoiceAgent.conversation v) = false →
          VoiceAgent.button v' = VoiceAgent.StartConversation false)
       ∧ requests (run envV (VoiceAgent.startConversation p v))
         = [VoiceAgent.startSession (VoiceAgent.agentId p) (js "webrtc")]).
Proof.
  split; [|split; [|split]].
  - intros m V. split; [by apply (after_invalid env s m)|].
    unfold Index.addOrUpdateAgent. by rewrite (addOrUpdateAgent_invalid _ _ _ V).
  - intros V. split.
    + intros E. rewrite (after_addOrUpdateAgent_valid _ _ V),
        (requests_addOrUpdateAgent_valid _ _ V).
      by destruct (Supabase.error _).
    + intros E. rewrite (after_addOrUpdateAgent_valid _ _ V), E.
      by rewrite after_loadAgents_form.
  - intros i E. rewrite after_removeAgent.
    destruct (run_removeAgent env i s) as (post & Hrun & Hreq & _).
    rewrite Hrun. cbn [requests]. rewrite Hreq. by destruct (Supabase.error _).
  - intros envV G M E v'. subst v'. unfold VoiceAgent.after.
    rewrite (run_startConversation_granted _ _ _ G), E.
    cbn -[VoiceAgent.apply]. unfold VoiceAgent.applyAll. cells.
    unfold VoiceAgent.button. cbn.
    split; [done|]. split; [done|]. split; [done|]. split; [|done]. by intros ->.
Qed.

Lemma stable_state_after_error_witness :
  let s := {| Index.agents := [Scenario.agent1]; Index.form := Scenario.support |} in
  let v := EventLoop.state
             (fst (VoiceAgent.steps Scenario.props (VoiceAgent.init Scenario.disconnected)
                     [ VoiceAgent.click_start; VoiceAgent.settle 0 VoiceAgent.fulfilled ])) in
  Index.after Scenario.refusing (Index.addOrUpdateAgent s) s = s
  ∧ Index.after Scenario.refusing (Index.removeAgent (js "7f3c")) s = s
  ∧ VoiceAgent.isInitializing
      (VoiceAgent.after Scenario.refuse (VoiceAgent.startConversation Scenario.props v) v)
    = false.
Proof.
  intros s v.
  destruct (stable_state_after_error s Scenario.refusing Scenario.props v)
    as (_ & H2 & H3 & H4).
  split; [|split].
  - apply H2; [reflexivity|]. by vm_compute.
  - apply H3. by vm_compute.
  - apply (H4 Scenario.refuse); reflexivity.
Defined.

(** ** Deleting *)

Lemma after_editAgent env s agent :
  Index.after env (AgentConfig.editAgent agent) s
  = Index.setForm s
      {| AgentConfig.newAgentName := AgentConfig.name agent;
         AgentConfig.newAgentId := AgentConfig.agentId agent;
         AgentConfig.newAgentBio := AgentConfig.bio agent;
         AgentConfig.newAgentLlm := orEmpty (AgentConfig.llm agent);
         AgentConfig.editingAgentId := Some (AgentConfig.id agent) |}.
Proof. done. Qed.

Lemma after_removeAgent_form env s i :
  Index.form (Index.after env (Index.removeAgent i) s) = Index.form s.
Proof.
  rewrite after_removeAgent. destruct (Supabase.error _); [done|].
  apply after_loadAgents_form.
Qed.

(** C9. A delete never touches the form or the edit flag.  In particular,
    after an agent has been loaded for editing and then deleted, the form
    still holds its fields, the button still reads "Update Agent", and a
    valid submission is an update aimed at the id of the deleted record. *)
Theorem removeAgent_keeps_form s env i agent :
  Index.form (Index.after env (Index.removeAgent i) s) = Index.form s
  ∧ (AgentConfig.id agent ≠ [] →
     let s1 := Index.after env (AgentConfig.editAgent agent) s in
     let s2 := Index.after env (Index.removeAgent (AgentConfig.id agent)) s1 in
     Index.form s2 = Index.form s1
     ∧ AgentConfig.newAgentName (Index.form s2) = AgentConfig.name agent
     ∧ AgentConfig.newAgentId (Index.form s2) = AgentConfig.agentId agent
     ∧ AgentConfig.newAgentBio (Index.form s2) = AgentConfig.bio agent
     ∧ AgentConfig.newAgentLlm (Index.form s2) = orEmpty (AgentConfig.llm agent)
     ∧ AgentConfig.editingAgentId (Index.form s2) = Some (AgentConfig.id agent)
     ∧ AgentConfig.submitLabel (Index.form s2) = js "Update Agent"
     ∧ (Spec.firstViolation (Index.form s2) = None →
        ∀ env', head (requests (run env' (Index.addOrUpdateAgent s2)))
                = Some (Supabase.update_eq_id
                          (AgentConfig.values (Issues.trimmed (Index.form s2)))
                          (AgentConfig.id agent)))).
Proof.
  split; [apply after_removeAgent_form|].
  intros Hid s1 s2.
  assert (Index.form s2 = Index.form s1) as E by apply after_removeAgent_form.
  assert (Index.form s1
          = {| AgentConfig.newAgentName := AgentConfig.name agent;
               AgentConfig.newAgentId := AgentConfig.agentId agent;
               AgentConfig.newAgentBio := AgentConfig.bio agent;
               AgentConfig.newAgentLlm := orEmpty (AgentConfig.llm agent);
               AgentConfig.editingAgentId := Some (AgentConfig.id agent) |}) as F
    by done.
  assert (AgentConfig.editingTarget (Index.form s2) = Some (AgentConfig.id agent)) as T.
  { rewrite E, F. unfold AgentConfig.editingTarget. cbn.
    by destruct (AgentConfig.id agent). }
  clearbody s1 s2. split; [done|].
  rewrite E at 1 2 3 4 5. rewrite F. cbn.
  repeat (split; [done|]). split.
  - unfold AgentConfig.submitLabel. by rewrite T.
  - intros V env'. rewrite (requests_addOrUpdateAgent_valid env' s2 V).
    cbn. unfold Issues.submitted. by rewrite T.
Qed.

Lemma removeAgent_keeps_form_witness :
  let s := {| Index.agents := [Scenario.agent1]; Index.form := Page.emptyForm |} in
  let s1 := Index.after Scenario.accepting (AgentConfig.editAgent Scenario.agent1) s in
  let s2 := Index.after Scenario.accepting (Index.removeAgent (js "7f3c")) s1 in
  Index.form s2 = Index.form s1
  ∧ AgentConfig.editingAgentId (Index.form s2) = Some (js "7f3c")
  ∧ head (requests (run Scenario.accepting (Index.addOrUpdateAgent s2)))
    = Some (Supabase.update_eq_id
              (AgentConfig.values (Issues.trimmed (Index.form s2))) (js "7f3c")).
Proof.
  intros s s1 s2.
  destruct (removeAgent_keeps_form s Scenario.accepting (js "7f3c") Scenario.agent1)
    as [_ H].
  destruct H as (H1 & _ & _ & _ & _ & H6 & _ & H8); [by vm_compute|].
  split; [exact H1|]. split; [exact H6|]. apply H8. by vm_compute.
Defined.

(** ** The scenarios of the specification, evaluated *)

Example trim_padded : trim (js "  Support ") = js "Support".
Proof. by vm_compute. Qed.

Example trim_inner_space_kept : trim (js " Helps  users ") = js "Helps  users".
Proof. by vm_compute. Qed.

Example pattern_accepts : AgentSchema.agentIdPattern (js "agent_123-A") = true.
Proof. by vm_compute. Qed.

Example pattern_rejects_space : AgentSchema.agentIdPattern (js "agent 123") = false.
Proof. by vm_compute. Qed.

Example pattern_rejects_empty : AgentSchema.agentIdPattern (js "") = false.
Proof. by vm_compute. Qed.

(** Submitting an id of two units is turned down with the message of the
    length constraint. *)
Example scenario_short_id :
  run Scenario.accepting
    (Index.addOrUpdateAgent {| Index.agents := []; Index.form := Scenario.shortId |})
  = [did (AgentConfig.toast
            {| title := js "Invalid Input";
               description := js "Agent ID must be at least 3 characters";
               destructive := true |})].
Proof. by vm_compute. Qed.

(** Several violations at once: the toast carries the first one only. *)
Example scenario_several_violations :
  Spec.panelToasts
    (run Scenario.accepting
       (Index.addOrUpdateAgent
          {| Index.agents := []; Index.form := Scenario.form " " "a!" "" "" None |}))
  = [Spec.invalidInput (js "Agent name is required")].
Proof. by vm_compute. Qed.

(** A missing id is reported with the message of the pattern. *)
Example scenario_missing_id :
  Spec.panelToasts
    (run Scenario.accepting
       (Index.addOrUpdateAgent
          {| Index.agents := []; Index.form := Scenario.form "Support" "" "" "" None |}))
  = [Spec.invalidInput
       (js "Agent ID can only contain letters, numbers, hyphens, and underscores")].
Proof. by vm_compute. Qed.

(** The accepted submission: one insert of the exact fields, the toast, the
    form cleared, then the reload that replaces the snapshot. *)
Example scenario_support :
  run Scenario.accepting
    (Index.addOrUpdateAgent {| Index.agents := []; Index.form := Scenario.support |})
  = [ awaited
        (Supabase.insert
           {| Supabase.v_name := js "Support";
              Supabase.v_agent_id := js "agent_123";
              Supabase.v_bio := Some (js "Helps users");
              Supabase.v_llm := Some (js "GPT-4") |})
        Scenario.ok;
      did (AgentConfig.toast
             {| title := js "Agent Added";
                description := js "Support has been added successfully";
                destructive := false |});
      did (AgentConfig.setNewAgentName []);
      did (AgentConfig.setNewAgentId []);
      did (AgentConfig.setNewAgentBio []);
      did (AgentConfig.setNewAgentLlm []);
      did (AgentConfig.setEditingAgentId None);
      awaited Supabase.select_all_order_created_at_ascending Scenario.listed;
      did (AgentConfig.setAgents [Scenario.agent1]) ].
Proof. by vm_compute. Qed.

(** The padded form writes the same record. *)
Example scenario_padded :
  requests
    (run Scenario.accepting
       (Index.addOrUpdateAgent {| Index.agents := []; Index.form := Scenario.padded |}))
  = requests
      (run Scenario.accepting
         (Index.addOrUpdateAgent {| Index.agents := []; Index.form := Scenario.support |})).
Proof. by vm_compute. Qed.

(** The first use of a card: a click that asks for the microphone, a click
    that starts the session. *)
Example scenario_two_clicks :
  snd (VoiceAgent.steps Scenario.props (VoiceAgent.init Scenario.disconnected)
         [ VoiceAgent.click_start; VoiceAgent.settle 0 VoiceAgent.fulfilled;
           VoiceAgent.click_start ])
  = [ EventLoop.requested VoiceAgent.getUserMedia_audio;
      EventLoop.performed (VoiceAgent.setIsPermissionGranted true);
      EventLoop.performed
        (VoiceAgent.toast
           {| title := js "Microphone Access Granted";
              description := js "You can now start a conversation";
              destructive := false |});
      EventLoop.performed (VoiceAgent.setIsInitializing true);
      EventLoop.requested (VoiceAgent.startSession (js "agent_123") (js "webrtc")) ].
Proof. by vm_compute. Qed.

(** * Further properties of the code *)

(** ** The panel: what is accepted and what is written *)

Lemma firstViolation_accepted f :
  Spec.firstViolation f = None ↔ DataModel.accepted f.
Proof.
  unfold Spec.firstViolation, DataModel.accepted.
  destruct (trim (AgentConfig.newAgentName f)) as [|c n] eqn:En.
  - rewrite bool_decide_eq_true_2 by done. split; [done|]. simpl. lia.
  - rewrite (bool_decide_eq_false_2 (c :: n = [])) by done.
    destruct (AgentSchema.agentIdPattern _); cbn [negb];
      repeat case_bool_decide; split; try done; try (intros; simpl in *; lia).
    all: simpl in *; intros _; repeat split; try done; lia.
Qed.

(** A valid submission reaches the store, an invalid one does not: the
    first request of the handler is a mutation exactly when the trimmed
    fields are within the bounds, the bounds included. *)
Theorem submission_sent_iff_accepted s env :
  (∃ q, q ∈ requests (run env (Index.addOrUpdateAgent s)) ∧ Supabase.isMutation q = true)
  ↔ DataModel.accepted (Index.form s).
Proof.
  rewrite <- firstViolation_accepted. split.
  - intros (q & Hq & _). destruct (Spec.firstViolation (Index.form s)) as [m|] eqn:V; [|done].
    unfold Index.addOrUpdateAgent in Hq.
    rewrite (addOrUpdateAgent_invalid _ _ _ V) in Hq. by apply elem_of_nil in Hq.
  - intros V. rewrite (requests_addOrUpdateAgent_valid _ _ V).
    exists (Issues.submitted (Index.form s)). split; [apply list_elem_of_here|].
    unfold Issues.submitted. by destruct (AgentConfig.editingTarget _).
Qed.

Lemma optional_within bound s :
  (length (trim s) ≤ bound)%nat →
  DataModel.optionalWithin bound (optOrNull (trim <$> orNull s)).
Proof.
  intros H. unfold orNull. destruct (truthy s); [|done]. cbn.
  unfold orNull. destruct (truthy (trim s)) eqn:T; [|done]. cbn.
  split; [|done]. intros E. by rewrite E in T.
Qed.

Lemma accepted_values_valid f :
  DataModel.accepted f → DataModel.valid (AgentConfig.values (Issues.trimmed f)).
Proof.
  intros (Hn & Hp & Ha & Hb & Hl). unfold DataModel.valid. cbn.
  repeat split; try done; try lia; by apply optional_within.
Qed.

(** Whatever the form holds, a record that [addOrUpdateAgent] writes meets
    the constraints of the data model: its name and id are within their
    bounds, the id matches the pattern, and a bio or label is either absent
    or a text that is not empty. *)
Theorem written_record_valid s env q v :
  q ∈ requests (run env (Index.addOrUpdateAgent s)) →
  Spec.written q = Some v →
  DataModel.valid v.
Proof.
  intros Hq Hw.
  destruct (Spec.firstViolation (Index.form s)) as [m|] eqn:V.
  - unfold Index.addOrUpdateAgent in Hq.
    rewrite (addOrUpdateAgent_invalid _ _ _ V) in Hq. by apply elem_of_nil in Hq.
  - rewrite (requests_addOrUpdateAgent_valid _ _ V) in Hq.
    apply elem_of_cons in Hq as [->|Hq].
    + rewrite written_submitted in Hw. injection Hw as <-.
      by apply accepted_values_valid, firstViolation_accepted.
    + destruct (Supabase.error _); [by apply elem_of_nil in Hq|].
      by apply list_elem_of_singleton in Hq as ->.
Qed.

Lemma written_record_valid_witness :
  DataModel.valid
    {| Supabase.v_name := js "Support";
       Supabase.v_agent_id := js "agent_123";
       Supabase.v_bio := Some (js "Helps users");
       Supabase.v_llm := Some (js "GPT-4") |}.
Proof.
  apply (written_record_valid
           {| Index.agents := []; Index.form := Scenario.padded |} Scenario.accepting
           (Supabase.insert
              {| Supabase.v_name := js "Support";
                 Supabase.v_agent_id := js "agent_123";
                 Supabase.v_bio := Some (js "Helps users");
                 Supabase.v_llm := Some (js "GPT-4") |})).
  - vm_compute. apply list_elem_of_here.
  - reflexivity.
Defined.

(** The label of the submit button and what a submission does agree: the
    button reads "Update Agent" exactly when a valid submission is an
    update, and "Add Agent" exactly when it is an insert.  An edit flag
    that holds the empty string counts as no edit in both places. *)
Theorem submit_label_matches_action s env :
  DataModel.accepted (Index.form s) →
  let first := head (requests (run env (Index.addOrUpdateAgent s))) in
  (AgentConfig.submitLabel (Index.form s) = js "Update Agent"
   ↔ ∃ v i, first = Some (Supabase.update_eq_id v i)
            ∧ AgentConfig.editingAgentId (Index.form s) = Some i ∧ i ≠ [])
  ∧ (AgentConfig.submitLabel (Index.form s) = js "Add Agent"
     ↔ ∃ v, first = Some (Supabase.insert v)).
Proof.
  intros A first. subst first. apply firstViolation_accepted in A.
  rewrite (requests_addOrUpdateAgent_valid _ _ A). cbn [head].
  unfold AgentConfig.submitLabel, Issues.submitted, AgentConfig.editingTarget.
  destruct (AgentConfig.editingAgentId (Index.form s)) as [[|c i]|]; cbn.
  - split; split; try done; [by intros (? & ? & [=] & _)|eauto].
  - split; split; try done; [intros _; by eexists _, _|by intros (? & [=])].
  - split; split; try done; [by intros (? & ? & [=] & _)|eauto].
Qed.

Lemma submit_label_matches_action_witness :
  let s := {| Index.agents := [];
              Index.form := Scenario.form "Support" "agent_123" "" "" (Some []) |} in
  AgentConfig.submitLabel (Index.form s) = js "Add Agent"
  ∧ ∃ v, head (requests (run Scenario.accepting (Index.addOrUpdateAgent s)))
         = Some (Supabase.insert v).
Proof.
  intros s. split; [reflexivity|].
  apply (submit_label_matches_action s Scenario.accepting); [|reflexivity].
  unfold DataModel.accepted. vm_compute. repeat split; lia.
Defined.

(** ** Editing: from a listed row to the form and back to the store *)

Lemma isIdUnit_not_space c : AgentSchema.isIdUnit c = true → isWhiteSpace c = false.
Proof.
  unfold AgentSchema.isIdUnit, isWhiteSpace. intros H.
  repeat (apply orb_prop in H as [H|H]); try apply andb_prop in H as [H1 H2];
    repeat match goal with
      | H : (_ <=? _) = true |- _ => apply N.leb_le in H
      | H : (_ =? _) = true |- _ => apply N.eqb_eq in H
      end;
    repeat (apply orb_false_intro);
    try (apply andb_false_iff; first [left; apply N.leb_gt; lia | right; apply N.leb_gt; lia]);
    try (apply N.eqb_neq; lia).
Qed.

Lemma pattern_noPadding s : AgentSchema.agentIdPattern s = true → Spec.noPadding s.
Proof.
  unfold AgentSchema.agentIdPattern. intros [_ H]%andb_prop.
  rewrite forallb_forall in H. split.
  - destruct s as [|c r]; [done|]. apply isIdUnit_not_space, H. by left.
  - unfold endsWithSpace. destruct (last s) as [c|] eqn:L; [|done].
    apply isIdUnit_not_space, H. apply list_elem_of_In.
    apply last_Some in L as [l' ->]. apply elem_of_app. right. apply list_elem_of_here.
Qed.

Lemma noPadding_trim s : Spec.noPadding s → trim s = s.
Proof. intros [H1 H2]. by apply trim_id. Qed.

Lemma optional_round_trip bound v :
  DataModel.optionalWithin bound v →
  (∀ b, v = Some b → Spec.noPadding b) →
  optOrNull (trim <$> orNull (orEmpty v)) = v.
Proof.
  destruct v as [b|]; [|done]. intros [Hb _] Hp. specialize (Hp b eq_refl).
  destruct b as [|c r]; [done|].
  change (orNull (orEmpty (Some (c :: r)))) with (Some (c :: r)).
  cbn [fmap option_fmap option_map optOrNull]. by rewrite (noPadding_trim _ Hp).
Qed.

(** Round trip.  A tidy row that is listed, loaded into the form with the
    pencil and submitted as it is, is written back unchanged: the
    submission is an update of the row's id with the row's own name, id,
    bio and label, a [null] bio or label staying [null]. *)
Theorem edit_then_submit_round_trip s env env' row :
  DataModel.tidy row →
  Supabase.id row ≠ [] →
  let s1 := Index.after env (AgentConfig.editAgent (Index.toAgent row)) s in
  requests (run env' (Index.addOrUpdateAgent s1))
  = Supabase.update_eq_id (DataModel.valuesOf row) (Supabase.id row)
    :: match Supabase.error
               (env' (Supabase.update_eq_id (DataModel.valuesOf row) (Supabase.id row))) with
       | None => [Supabase.select_all_order_created_at_ascending]
       | Some _ => []
       end.
Proof.
  intros [(Hn & Hp & Ha & Hb & Hl) (Cn & Ca & Cb & Cl)] Hid s1.
  cbn in Hn, Hp, Ha, Hb, Hl, Cn, Ca, Cb, Cl.
  assert (Index.form s1
          = {| AgentConfig.newAgentName := Supabase.name row;
               AgentConfig.newAgentId := Supabase.agent_id row;
               AgentConfig.newAgentBio := orEmpty (Supabase.bio row);
               AgentConfig.newAgentLlm := orEmpty (Some (orEmpty (Supabase.llm row)));
               AgentConfig.editingAgentId := Some (Supabase.id row) |}) as F by done.
  assert (orEmpty (Some (orEmpty (Supabase.llm row))) = orEmpty (Supabase.llm row)) as L.
  { by destruct (Supabase.llm row) as [[|]|]. }
  rewrite L in F. clear L.
  assert (Issues.submitted (Index.form s1)
          = Supabase.update_eq_id (DataModel.valuesOf row) (Supabase.id row)) as Q.
  { rewrite F. unfold Issues.submitted, AgentConfig.editingTarget. cbn -[trim].
    destruct (Supabase.id row) as [|c i] eqn:Ei; [done|]. cbn -[trim]. f_equal.
    unfold AgentConfig.values, Issues.trimmed, DataModel.valuesOf. cbn -[trim].
    rewrite (noPadding_trim _ Cn), (noPadding_trim _ Ca).
    by rewrite (optional_round_trip 1000 _ Hb Cb), (optional_round_trip 100 _ Hl Cl). }
  assert (Spec.firstViolation (Index.form s1) = None) as V.
  { apply firstViolation_accepted. rewrite F. unfold DataModel.accepted. cbn -[trim].
    rewrite (noPadding_trim _ Cn), (noPadding_trim _ Ca).
    repeat split; try done; try lia.
    - destruct (Supabase.bio row) as [b|]; [|cbn; lia].
      destruct Hb as [? ?]. specialize (Cb b eq_refl).
      destruct b; [done|]. cbn [orEmpty truthy]. by rewrite (noPadding_trim _ Cb).
    - destruct (Supabase.llm row) as [b|]; [|cbn; lia].
      destruct Hl as [? ?]. specialize (Cl b eq_refl).
      destruct b; [done|]. cbn [orEmpty truthy]. by rewrite (noPadding_trim _ Cl). }
  clearbody s1. rewrite (requests_addOrUpdateAgent_valid _ _ V). by rewrite Q.
Qed.

Lemma edit_then_submit_round_trip_witness :
  let s := {| Index.agents := [Scenario.agent1]; Index.form := Page.emptyForm |} in
  let s1 := Index.after Scenario.accepting (AgentConfig.editAgent Scenario.agent1) s in
  requests (run Scenario.accepting (Index.addOrUpdateAgent s1))
  = [ Supabase.update_eq_id (DataModel.valuesOf Scenario.row1) (js "7f3c");
      Supabase.select_all_order_created_at_ascending ].
Proof.
  intros s s1.
  apply (edit_then_submit_round_trip s Scenario.accepting Scenario.accepting Scenario.row1).
  - split.
    + unfold DataModel.valid. vm_compute. repeat split; try done; lia.
    + unfold Spec.clean, DataModel.valuesOf. cbn.
      split; [by vm_compute|]. split; [by vm_compute|].
      split; [intros b [= <-]; by vm_compute|by intros l [=]].
  - done.
Defined.

(** ** The panel as a machine *)

Lemma page_spawn_sync (c : Page.Config) h acts :
  advance h = (acts, None) →
  EventLoop.spawn Index.apply c h
  = ({| EventLoop.state := foldl Index.apply (EventLoop.state c) acts;
        EventLoop.pending := EventLoop.pending c |},
     map EventLoop.performed acts).
Proof. intros H. unfold EventLoop.spawn. by rewrite H. Qed.

Lemma page_step_holds c i :
  PageInvariant.holds c → PageInvariant.holds (fst (Page.step c i)).
Proof.
  unfold PageInvariant.holds. intros K. destruct c as [s pend]. cbn in K.
  destruct i as [v|v|v|v| | |a|a|n r]; cbn [Page.step EventLoop.state]; try done.
  - unfold AgentConfig.submitDisabled. cbn [EventLoop.state].
    unfold Index.addOrUpdateAgent.
    destruct (Spec.firstViolation (Index.form s)) as [m|] eqn:V.
    + by rewrite (addOrUpdateAgent_invalid _ _ _ V).
    + rewrite (addOrUpdateAgent_valid _ _ V).
      destruct (AgentConfig.editingTarget _); cbn;
        (apply Forall_app; split; [done|]); apply Forall_singleton; by eexists.
  - by destruct (AgentConfig.editingTarget _).
  - by case_bool_decide.
  - case_bool_decide; [|done]. cbn.
    apply Forall_app; split; [done|]. by apply Forall_singleton.
  - unfold EventLoop.settle. cbn [EventLoop.pending EventLoop.state].
    destruct (pend !! n) as [[q k]|] eqn:E; [|done].
    pose proof (Forall_lookup_1 _ _ _ _ K E) as Kq.
    pose proof (Forall_delete _ _ n K) as F.
    unfold PageInvariant.known in Kq. cbn in Kq. cbn [snd].
    destruct q as [v j|v|j|].
    + destruct Kq as [d Kq]. rewrite Kq. unfold AgentConfig.afterUpdate.
      destruct (Supabase.error r); cbn; [done|].
      apply Forall_app; split; [done|]. by apply Forall_singleton.
    + destruct Kq as [d Kq]. rewrite Kq. unfold AgentConfig.afterInsert.
      destruct (Supabase.error r); cbn; [done|].
      apply Forall_app; split; [done|]. by apply Forall_singleton.
    + rewrite Kq. unfold AgentConfig.afterDelete.
      destruct (Supabase.error r); cbn; [done|].
      apply Forall_app; split; [done|]. by apply Forall_singleton.
    + rewrite Kq. unfold Index.afterSelect.
      by destruct (Supabase.error r); [|destruct (Supabase.data r)].
Qed.

Lemma page_reachable_holds agents c : Page.reachable agents c → PageInvariant.holds c.
Proof.
  induction 1 as [|c i _ IH]; [by constructor|by apply page_step_holds].
Qed.

Lemma page_inFlight_lookup (c : Page.Config) n :
  EventLoop.inFlight c !! n = fst <$> EventLoop.pending c !! n.
Proof. unfold EventLoop.inFlight. apply list_lookup_fmap. Qed.

(** The registry snapshot is never patched locally.  Whatever the user
    does and whatever the store answers, a step of the panel changes the
    snapshot only when it is the answer to a listing, without error and
    with rows, and the snapshot is then those rows. *)
Theorem snapshot_changes_only_by_listing agents c i :
  Page.reachable agents c →
  Index.agents (EventLoop.state (fst (Page.step c i))) ≠ Index.agents (EventLoop.state c) →
  ∃ n r rows,
    i = Page.settle n r
    ∧ EventLoop.inFlight c !! n = Some Supabase.select_all_order_created_at_ascending
    ∧ Supabase.error r = None
    ∧ Supabase.data r = Some rows
    ∧ Index.agents (EventLoop.state (fst (Page.step c i))) = map Index.toAgent rows.
Proof.
  intros R. pose proof (page_reachable_holds _ _ R) as K. unfold PageInvariant.holds in K.
  destruct c as [s pend]. cbn in K.
  destruct i as [v|v|v|v| | |a|a|n r]; cbn [Page.step EventLoop.state]; try done.
  - unfold AgentConfig.submitDisabled. unfold Index.addOrUpdateAgent.
    destruct (Spec.firstViolation (Index.form s)) as [m|] eqn:V.
    + by rewrite (addOrUpdateAgent_invalid _ _ _ V).
    + rewrite (addOrUpdateAgent_valid _ _ V). by destruct (AgentConfig.editingTarget _).
  - by destruct (AgentConfig.editingTarget _).
  - by case_bool_decide.
  - by case_bool_decide.
  - unfold EventLoop.settle. cbn [EventLoop.pending EventLoop.state].
    destruct (pend !! n) as [[q k]|] eqn:E; [|done].
    pose proof (Forall_lookup_1 _ _ _ _ K E) as Kq.
    unfold PageInvariant.known in Kq. cbn in Kq. cbn [snd].
    destruct q as [v j|v|j|].
    + destruct Kq as [d Kq]. rewrite Kq. unfold AgentConfig.afterUpdate.
      by destruct (Supabase.error r).
    + destruct Kq as [d Kq]. rewrite Kq. unfold AgentConfig.afterInsert.
      by destruct (Supabase.error r).
    + rewrite Kq. unfold AgentConfig.afterDelete. by destruct (Supabase.error r).
    + rewrite Kq. unfold Index.afterSelect.
      destruct (Supabase.error r) eqn:Er; [done|].
      destruct (Supabase.data r) as [rows|] eqn:Ed; [|done].
      intros _. exists n, r, rows. rewrite page_inFlight_lookup. cbn [EventLoop.pending]. by rewrite E.
Qed.

Lemma snapshot_changes_only_by_listing_witness :
  let c := Page.steps (Page.init [])
             [ Page.type_name (js "Support"); Page.type_id (js "agent_123");
               Page.click_submit; Page.settle 0 Scenario.ok ] in
  EventLoop.inFlight c = [Supabase.select_all_order_created_at_ascending]
  ∧ Index.agents (EventLoop.state c) = []
  ∧ Index.agents (EventLoop.state (fst (Page.step c (Page.settle 0 Scenario.listed))))
    = [Scenario.agent1].
Proof.
  intros c. split; [reflexivity|]. split; [reflexivity|].
  destruct (snapshot_changes_only_by_listing [] c (Page.settle 0 Scenario.listed))
    as (n & r & rows & Hi & _ & _ & Hd & Ha).
  - apply page_reachable_steps, Page.reachable_init.
  - by vm_compute.
  - injection Hi as <- <-. injection Hd as <-. exact Ha.
Defined.

Lemma page_lookup_inFlight (c : Page.Config) n q :
  EventLoop.inFlight c !! n = Some q →
  ∃ k, EventLoop.pending c !! n = Some (q, k).
Proof.
  rewrite page_inFlight_lookup. destruct (EventLoop.pending c !! n) as [[q' k]|]; [|done].
  intros [= <-]. by exists k.
Qed.

Lemma inFlight_delete (c : Page.Config) n :
  map fst (delete n (EventLoop.pending c)) = delete n (EventLoop.inFlight c).
Proof.
  unfold EventLoop.inFlight. generalize (EventLoop.pending c). intros l.
  revert n. induction l as [|x l IH]; intros [|n]; simpl; try done. by rewrite IH.
Qed.

(** When the answer to a mutation arrives, the form is judged as it is
    then, not as it was at the click.  An answer with an error shows the
    store's message and changes nothing.  An answer without error clears
    the form after an insert or update, whatever was typed in the
    meantime, leaves it as it is after a delete, and in both cases asks for
    the listing and leaves the snapshot as it is until the listing
    answers. *)
Theorem mutation_answer agents c n r q :
  Page.reachable agents c →
  EventLoop.inFlight c !! n = Some q →
  Supabase.isMutation q = true →
  let c' := fst (Page.step c (Page.settle n r)) in
  let out := snd (Page.step c (Page.settle n r)) in
  match Supabase.error r with
  | Some e =>
      EventLoop.state c' = EventLoop.state c
      ∧ out = [EventLoop.performed (AgentConfig.toast (AgentConfig.errorToast e))]
      ∧ EventLoop.inFlight c' = delete n (EventLoop.inFlight c)
  | None =>
      Index.form (EventLoop.state c')
        = (match q with
           | Supabase.delete_eq_id _ => Index.form (EventLoop.state c)
           | _ => Page.emptyForm
           end)
      ∧ Index.agents (EventLoop.state c') = Index.agents (EventLoop.state c)
      ∧ EventLoop.issuedRequests out = [Supabase.select_all_order_created_at_ascending]
      ∧ EventLoop.inFlight c'
        = delete n (EventLoop.inFlight c) ++ [Supabase.select_all_order_created_at_ascending]
  end.
Proof.
  intros R Hq Hm c' out. subst c' out.
  pose proof (page_reachable_holds _ _ R) as K. unfold PageInvariant.holds in K.
  destruct (page_lookup_inFlight _ _ _ Hq) as [k E].
  pose proof (Forall_lookup_1 _ _ _ _ K E) as Kq.
  unfold PageInvariant.known in Kq. cbn in Kq.
  pose proof (inFlight_delete c n) as D.
  destruct c as [s pend]. cbn [Page.step]. unfold EventLoop.settle.
  cbn [EventLoop.pending EventLoop.state EventLoop.inFlight] in *. rewrite E. cbn [snd].
  destruct q as [v j|v|j|]; [| | |done].
  - destruct Kq as [d Kq]. rewrite Kq. unfold AgentConfig.afterUpdate.
    destruct (Supabase.error r); cbn; unfold EventLoop.inFlight; cbn;
      rewrite ?map_app, ?D; [by destruct s|done].
  - destruct Kq as [d Kq]. rewrite Kq. unfold AgentConfig.afterInsert.
    destruct (Supabase.error r); cbn; unfold EventLoop.inFlight; cbn;
      rewrite ?map_app, ?D; [by destruct s|done].
  - rewrite Kq. unfold AgentConfig.afterDelete.
    destruct (Supabase.error r); cbn; unfold EventLoop.inFlight; cbn;
      rewrite ?map_app, ?D; [by destruct s|done].
Qed.

Lemma mutation_answer_witness :
  let c := Page.steps (Page.init [])
             [ Page.type_name (js "Support"); Page.type_id (js "agent_123");
               Page.click_submit; Page.type_name (js "Sales") ] in
  AgentConfig.newAgentName (Index.form (EventLoop.state c)) = js "Sales"
  ∧ Index.form (EventLoop.state (fst (Page.step c (Page.settle 0 Scenario.ok))))
    = Page.emptyForm
  ∧ EventLoop.state (fst (Page.step c (Page.settle 0 Scenario.denied))) = EventLoop.state c.
Proof.
  intros c.
  assert (Page.reachable [] c) as R by apply page_reachable_steps, Page.reachable_init.
  split; [reflexivity|]. split.
  - apply (mutation_answer [] c 0 Scenario.ok
             (Supabase.insert
                {| Supabase.v_name := js "Support"; Supabase.v_agent_id := js "agent_123";
                   Supabase.v_bio := None; Supabase.v_llm := None |}) R);
      reflexivity.
  - apply (mutation_answer [] c 0 Scenario.denied
             (Supabase.insert
                {| Supabase.v_name := js "Support"; Supabase.v_agent_id := js "agent_123";
                   Supabase.v_bio := None; Supabase.v_llm := None |}) R);
      reflexivity.
Defined.

(** Cancelling an edit.  From any state of the panel, with any draft in
    the form, clicking the pencil of a listed agent and then Cancel leaves
    the form empty and in create mode: the draft is not restored.  Neither
    click sends anything to the store, and the snapshot and the requests in
    flight are as they were.  A submission right after is turned down for
    its missing name. *)
Theorem edit_then_cancel (c : Page.Config) agent env :
  agent ∈ Index.agents (EventLoop.state c) →
  AgentConfig.id agent ≠ [] →
  let r1 := Page.step c (Page.click_edit agent) in
  let r2 := Page.step (fst r1) Page.click_cancel in
  Index.form (EventLoop.state (fst r2)) = Page.emptyForm
  ∧ Index.agents (EventLoop.state (fst r2)) = Index.agents (EventLoop.state c)
  ∧ EventLoop.pending (fst r2) = EventLoop.pending c
  ∧ EventLoop.issuedRequests (snd r1 ++ snd r2) = []
  ∧ AgentConfig.submitLabel (Index.form (EventLoop.state (fst r2))) = js "Add Agent"
  ∧ run env (Index.addOrUpdateAgent (EventLoop.state (fst r2)))
    = [did (AgentConfig.toast (Spec.invalidInput (js "Agent name is required")))].
Proof.
  intros Hin Hid r1 r2. subst r1 r2. destruct c as [s pend]. cbn in Hin.
  cbn [Page.step EventLoop.state]. rewrite bool_decide_eq_true_2 by done.
  cbn. unfold AgentConfig.editingTarget. cbn.
  destruct (AgentConfig.id agent) as [|x i]; [done|]. cbn. done.
Qed.

Lemma edit_then_cancel_witness :
  let c := Page.steps (Page.init [Scenario.agent1]) [Page.type_name (js "Draft")] in
  Index.form (EventLoop.state
                (Page.steps c [Page.click_edit Scenario.agent1; Page.click_cancel]))
  = Page.emptyForm.
Proof.
  intros c.
  apply (edit_then_cancel c Scenario.agent1 Scenario.accepting).
  - apply list_elem_of_here.
  - done.
Defined.

(** The answer to a listing.  With an error the snapshot stays as it was,
    stale, and the store's message is shown; without error and without
    rows nothing happens at all; with rows the snapshot becomes one agent
    per row, in the order of the rows and with their ids, a [null] bio or
    label shown as the empty text.  The form is never touched and
    nothing more is asked of the store. *)
Theorem listing_answer agents c n r :
  Page.reachable agents c →
  EventLoop.inFlight c !! n = Some Supabase.select_all_order_created_at_ascending →
  let c' := fst (Page.step c (Page.settle n r)) in
  let out := snd (Page.step c (Page.settle n r)) in
  Index.form (EventLoop.state c') = Index.form (EventLoop.state c)
  ∧ EventLoop.issuedRequests out = []
  ∧ EventLoop.inFlight c' = delete n (EventLoop.inFlight c)
  ∧ match Supabase.error r, Supabase.data r with
    | Some e, _ =>
        Index.agents (EventLoop.state c') = Index.agents (EventLoop.state c)
        ∧ out = [EventLoop.performed
                   (AgentConfig.toast
                      {| title := js "Error loading agents";
                         description := Supabase.message e;
                         destructive := true |})]
    | None, None =>
        Index.agents (EventLoop.state c') = Index.agents (EventLoop.state c) ∧ out = []
    | None, Some rows =>
        map AgentConfig.id (Index.agents (EventLoop.state c')) = map Supabase.id rows
        ∧ map AgentConfig.bio (Index.agents (EventLoop.state c'))
          = map (λ row, orEmpty (Supabase.bio row)) rows
        ∧ map AgentConfig.llm (Index.agents (EventLoop.state c'))
          = map (λ row, Some (orEmpty (Supabase.llm row))) rows
    end.
Proof.
  intros R Hq c' out. subst c' out.
  pose proof (page_reachable_holds _ _ R) as K. unfold PageInvariant.holds in K.
  destruct (page_lookup_inFlight _ _ _ Hq) as [k E].
  pose proof (Forall_lookup_1 _ _ _ _ K E) as Kq.
  unfold PageInvariant.known in Kq. cbn in Kq.
  pose proof (inFlight_delete c n) as D.
  destruct c as [s pend]. cbn [Page.step]. unfold EventLoop.settle.
  cbn [EventLoop.pending EventLoop.state EventLoop.inFlight] in *. rewrite E. cbn [snd].
  rewrite Kq. unfold Index.afterSelect.
  destruct (Supabase.error r) as [e|]; [|destruct (Supabase.data r) as [rows|]];
    cbn; unfold EventLoop.inFlight; cbn; rewrite ?D; repeat split; try done.
  all: rewrite map_map; done.
Qed.

Lemma listing_answer_witness :
  let c := Page.steps (Page.init [Scenario.agent1])
             [ Page.click_remove Scenario.agent1; Page.settle 0 Scenario.ok ] in
  Index.agents (EventLoop.state (fst (Page.step c (Page.settle 0 Scenario.denied))))
  = [Scenario.agent1].
Proof.
  intros c.
  destruct (listing_answer [Scenario.agent1] c 0 Scenario.denied) as (_ & _ & _ & H).
  - apply page_reachable_steps, Page.reachable_init.
  - reflexivity.
  - apply H.
Defined.

(** ** The controller: what its cells and requests stand for *)

Lemma step_initializing_pending p (c : VoiceAgent.Config) i :
  Invariant.holds c →
  (VoiceAgent.mounted (EventLoop.state c) = true →
   VoiceAgent.isInitializing (EventLoop.state c) = true →
   Invariant.startsInFlight c = 1%nat) →
  VoiceAgent.mounted (EventLoop.state (fst (VoiceAgent.step p c i))) = true →
  VoiceAgent.isInitializing (EventLoop.state (fst (VoiceAgent.step p c i))) = true →
  Invariant.startsInFlight (fst (VoiceAgent.step p c i)) = 1%nat.
Proof.
  intros [H1 H2 H3 H4] P. destruct c as [s pend].
  unfold Invariant.startsInFlight in *. cbn in H1, H2, H3, H4, P.
  destruct (VoiceAgent.mounted s) eqn:M.
  2:{ intros M'. exfalso. revert M'.
      destruct i as [| | | | | |conv|n r|]; cbn [VoiceAgent.step EventLoop.state];
        rewrite ?M; cbn; rewrite ?M; try done.
      - cells. by rewrite M.
      - cells. by rewrite M.
      - cells. by rewrite M.
      - cells. by rewrite M.
      - unfold EventLoop.settle. cbn [EventLoop.pending EventLoop.state].
        destruct (pend !! n) as [[q k]|] eqn:E; [|by cbn; rewrite M].
        pose proof (Forall_lookup_1 _ _ _ _ H1 E) as K.
        unfold Invariant.known in K. cbn in K. cbn [snd].
        destruct q as [|a t|]; rewrite K; destruct r; cells; by rewrite M. }
  specialize (P eq_refl).
  destruct i as [| | | | | |conv|n r|]; cbn [VoiceAgent.step EventLoop.state];
    rewrite ?M.
  - unfold VoiceAgent.button.
    destruct (negb (VoiceAgent.isConnected _)); [|cbn; intros _; apply P].
    destruct (VoiceAgent.isInitializing s) eqn:I; [cbn; intros _ _; by apply P|].
    unfold VoiceAgent.startConversation.
    destruct (VoiceAgent.isPermissionGranted s) eqn:G; cells.
    + intros _ _. rewrite starts_app. cbn.
      destruct (decide (Invariant.starts pend = 1%nat)) as [E1|]; [|lia].
      specialize (H3 E1). congruence.
    + by rewrite I.
  - destruct (VoiceAgent.button s); [cbn; intros _; apply P|]. cbn.
    intros _ I. rewrite starts_app. cbn. rewrite Nat.add_0_r. by apply P.
  - cells. intros _. apply P.
  - cells. intros _. apply P.
  - cells. intros _. apply P.
  - cells. intros _. apply P.
  - cbn. intros _. apply P.
  - unfold EventLoop.settle. cbn [EventLoop.pending EventLoop.state].
    destruct (pend !! n) as [[q k]|] eqn:E; [|cbn; intros _; apply P].
    pose proof (Forall_lookup_1 _ _ _ _ H1 E) as K.
    pose proof (starts_delete _ _ _ E) as D. cbn in D.
    unfold Invariant.known in K. cbn in K. cbn [snd].
    destruct q as [|a t|]; rewrite K; cbn in D; rewrite ?Nat.add_0_r in D.
    + destruct r; cells; intros _ I; rewrite D; by apply P.
    + destruct r; cells; done.
    + cells. intros _ I. rewrite D. by apply P.
  - unfold VoiceAgent.cleanup. by destruct (VoiceAgent.isConnected _).
Qed.

Lemma reachable_initializing_pending p c0 c :
  VoiceAgent.reachable p c0 c →
  VoiceAgent.mounted (EventLoop.state c) = true →
  VoiceAgent.isInitializing (EventLoop.state c) = true →
  Invariant.startsInFlight c = 1%nat.
Proof.
  induction 1 as [|c i R IH]; [done|].
  apply step_initializing_pending; [by eapply reachable_holds|done].
Qed.

(** The spinner stands for a pending start.  In a mounted controller
    [isInitializing] is true exactly while one call of [startSession] is
    awaited: the button reads "Connecting..." for no other reason, and it
    stops reading it only when that call settles. *)
Theorem initializing_iff_start_pending p c0 c :
  VoiceAgent.reachable p c0 c →
  VoiceAgent.mounted (EventLoop.state c) = true →
  (VoiceAgent.isInitializing (EventLoop.state c) = true
   ↔ Invariant.startsInFlight c = 1%nat).
Proof.
  intros R M. split.
  - by apply (reachable_initializing_pending p c0).
  - apply (Invariant.start_initializing _ (reachable_holds _ _ _ R)).
Qed.

Lemma initializing_iff_start_pending_witness :
  let c := fst (VoiceAgent.steps Scenario.props (VoiceAgent.init Scenario.disconnected)
                  [ VoiceAgent.click_start; VoiceAgent.settle 0 VoiceAgent.fulfilled;
                    VoiceAgent.click_start; VoiceAgent.sdk_update Scenario.connected ]) in
  VoiceAgent.isInitializing (EventLoop.state c) = true
  ∧ EventLoop.inFlight c = [VoiceAgent.startSession (js "agent_123") (js "webrtc")].
Proof.
  intros c. split; [|reflexivity].
  apply (initializing_iff_start_pending Scenario.props Scenario.disconnected c).
  - apply reachable_steps, VoiceAgent.reachable_init.
  - reflexivity.
  - reflexivity.
Defined.

(** The permission cell is set by a grant and by nothing else: a step
    that turns it on is the fulfilment of a pending [getUserMedia]. *)
Theorem permission_only_by_grant p c0 c i :
  VoiceAgent.reachable p c0 c →
  VoiceAgent.isPermissionGranted (EventLoop.state c) = false →
  VoiceAgent.isPermissionGranted (EventLoop.state (fst (VoiceAgent.step p c i))) = true →
  ∃ n, i = VoiceAgent.settle n VoiceAgent.fulfilled
       ∧ EventLoop.inFlight c !! n = Some VoiceAgent.getUserMedia_audio.
Proof.
  intros R G. pose proof (Invariant.pending_known _ (reachable_holds _ _ _ R)) as K.
  destruct c as [s pend]. cbn in G, K.
  destruct i as [| | | | | |conv|n r|]; cbn [VoiceAgent.step EventLoop.state].
  - destruct (VoiceAgent.mounted s) eqn:M; [|cells; by rewrite G].
    destruct (VoiceAgent.button s) as [[]|]; try (cells; by rewrite G).
    unfold VoiceAgent.startConversation. rewrite G. cells. by rewrite G.
  - destruct (VoiceAgent.mounted s) eqn:M; [|cells; by rewrite G].
    destruct (VoiceAgent.button s) as [[]|]; cells; by rewrite G.
  - cells. by rewrite G.
  - cells. by rewrite G.
  - cells. by rewrite G.
  - cells. by rewrite G.
  - destruct (VoiceAgent.mounted s); cbn; by rewrite G.
  - unfold EventLoop.settle. cbn [EventLoop.pending EventLoop.state].
    destruct (pend !! n) as [[q k]|] eqn:E; [|cells; by rewrite G].
    pose proof (Forall_lookup_1 _ _ _ _ K E) as Kq. unfold Invariant.known in Kq. cbn in Kq.
    cbn [snd].
    destruct q; rewrite Kq; destruct r, (VoiceAgent.mounted s) eqn:M; cells;
      rewrite ?G; try done.
    intros _. exists n. split; [done|]. unfold EventLoop.inFlight. cbn.
    by rewrite list_lookup_fmap, E.
  - destruct (VoiceAgent.mounted s) eqn:M; [|cells; by rewrite G].
    unfold VoiceAgent.cleanup. destruct (VoiceAgent.isConnected _); cells; by rewrite G.
Qed.

Lemma permission_only_by_grant_witness :
  let c := fst (VoiceAgent.steps Scenario.props (VoiceAgent.init Scenario.disconnected)
                  [ VoiceAgent.click_start ]) in
  ∃ n, VoiceAgent.settle 0 VoiceAgent.fulfilled = VoiceAgent.settle n VoiceAgent.fulfilled
       ∧ EventLoop.inFlight c !! n = Some VoiceAgent.getUserMedia_audio.
Proof.
  intros c.
  apply (permission_only_by_grant Scenario.props Scenario.disconnected c
           (VoiceAgent.settle 0 VoiceAgent.fulfilled)).
  - apply reachable_steps, VoiceAgent.reachable_init.
  - reflexivity.
  - reflexivity.
Defined.

(** Every request of the controller is made by a click or by the unmount,
    never by a handler that resumes.  The microphone is asked for by a
    Start click without permission; [startSession] is called by a Start
    click with permission, on an idle controller, for the agent of the card
    and over WebRTC; [endSession] is called by an End click while
    connected, or by the unmount when the first render was connected. *)
Theorem requests_come_from_clicks p c0 c i q :
  VoiceAgent.reachable p c0 c →
  EventLoop.requested q ∈ snd (VoiceAgent.step p c i) →
  let s := EventLoop.state c in
  VoiceAgent.mounted s = true
  ∧ match q with
    | VoiceAgent.getUserMedia_audio =>
        i = VoiceAgent.click_start ∧ VoiceAgent.isPermissionGranted s = false
    | VoiceAgent.startSession a t =>
        i = VoiceAgent.click_start
        ∧ a = VoiceAgent.agentId p ∧ t = js "webrtc"
        ∧ VoiceAgent.isPermissionGranted s = true
        ∧ VoiceAgent.isInitializing s = false
        ∧ VoiceAgent.isConnected (VoiceAgent.conversation s) = false
    | VoiceAgent.endSession =>
        (i = VoiceAgent.click_end
         ∧ VoiceAgent.isConnected (VoiceAgent.conversation s) = true)
        ∨ (i = VoiceAgent.unmount ∧ VoiceAgent.isConnected c0 = true)
    end.
Proof.
  intros R. pose proof (Invariant.pending_known _ (reachable_holds _ _ _ R)) as K.
  pose proof (reachable_cleanupConversation _ _ _ R) as C0.
  destruct c as [s pend]. cbn in K, C0. cbn [EventLoop.state].
  destruct i as [| | | | | |conv|n r|]; cbn [VoiceAgent.step EventLoop.state].
  - destruct (VoiceAgent.mounted s) eqn:M; [|by intros []%elem_of_nil].
    unfold VoiceAgent.button.
    destruct (VoiceAgent.isConnected (VoiceAgent.conversation s)) eqn:Ec; cbn [negb];
      [by intros []%elem_of_nil|].
    destruct (VoiceAgent.isInitializing s) eqn:I; [by intros []%elem_of_nil|].
    unfold VoiceAgent.startConversation.
    destruct (VoiceAgent.isPermissionGranted s) eqn:G; cells.
    + intros [[=]|[[= ->]|[]%elem_of_nil]%elem_of_cons]%elem_of_cons. done.
    + intros [[= ->]|[]%elem_of_nil]%elem_of_cons. done.
  - destruct (VoiceAgent.mounted s) eqn:M; [|by intros []%elem_of_nil].
    unfold VoiceAgent.button.
    destruct (VoiceAgent.isConnected (VoiceAgent.conversation s)) eqn:Ec; cbn [negb];
      [|by intros []%elem_of_nil].
    cells. intros [[= ->]|[]%elem_of_nil]%elem_of_cons. split; [done|]. by left.
  - cells. intros [[=]|[[=]|[]%elem_of_nil]%elem_of_cons]%elem_of_cons.
  - cells. intros [[=]|[]%elem_of_nil]%elem_of_cons.
  - cells. intros [[=]|[[=]|[]%elem_of_nil]%elem_of_cons]%elem_of_cons.
  - cells. intros [[=]|[]%elem_of_nil]%elem_of_cons.
  - destruct (VoiceAgent.mounted s); by intros []%elem_of_nil.
  - unfold EventLoop.settle. cbn [EventLoop.pending EventLoop.state].
    destruct (pend !! n) as [[q' k]|] eqn:E; [|by intros []%elem_of_nil].
    pose proof (Forall_lookup_1 _ _ _ _ K E) as Kq. unfold Invariant.known in Kq. cbn in Kq.
    cbn [snd].
    destruct q'; rewrite Kq; destruct r; cells; intros H;
      repeat (apply elem_of_cons in H as [[=]|H]); by apply elem_of_nil in H.
  - destruct (VoiceAgent.mounted s) eqn:M; [|by intros []%elem_of_nil].
    unfold VoiceAgent.cleanup. rewrite C0.
    destruct (VoiceAgent.isConnected c0) eqn:Ec; cells; [|by intros []%elem_of_nil].
    intros [[= ->]|[]%elem_of_nil]%elem_of_cons. split; [done|]. by right.
Qed.

Lemma requests_come_from_clicks_witness :
  let c := fst (VoiceAgent.steps Scenario.props (VoiceAgent.init Scenario.disconnected)
                  [ VoiceAgent.click_start; VoiceAgent.settle 0 VoiceAgent.fulfilled ]) in
  VoiceAgent.isPermissionGranted (EventLoop.state c) = true
  ∧ VoiceAgent.isInitializing (EventLoop.state c) = false.
Proof.
  intros c.
  destruct (requests_come_from_clicks Scenario.props Scenario.disconnected c
              VoiceAgent.click_start
              (VoiceAgent.startSession (js "agent_123") (js "webrtc")))
    as (_ & _ & _ & _ & H1 & H2 & _).
  - apply reachable_steps, VoiceAgent.reachable_init.
  - vm_compute. apply list_elem_of_further, list_elem_of_here.
  - by split.
Defined.

(** A pending request for the microphone guards nothing.  On a mounted
    controller without permission that is not connected, a Start click
    always goes through: it asks for the microphone once more, beside the
    requests already in flight, and changes no cell. *)
Theorem microphone_request_not_guarded p c0 c :
  VoiceAgent.reachable p c0 c →
  let s := EventLoop.state c in
  VoiceAgent.mounted s = true →
  VoiceAgent.isPermissionGranted s = false →
  VoiceAgent.isConnected (VoiceAgent.conversation s) = false →
  let r := VoiceAgent.step p c VoiceAgent.click_start in
  VoiceAgent.button s = VoiceAgent.StartConversation false
  ∧ snd r = [EventLoop.requested VoiceAgent.getUserMedia_audio]
  ∧ EventLoop.state (fst r) = s
  ∧ EventLoop.inFlight (fst r) = EventLoop.inFlight c ++ [VoiceAgent.getUserMedia_audio].
Proof.
  intros R s M G Ec r. subst r.
  destruct (Invariant.start_granted _ (reachable_holds _ _ _ R) G) as [I _].
  fold s in I. destruct c as [s0 pend]. cbn in s. subst s.
  cbn [VoiceAgent.step EventLoop.state]. rewrite M.
  unfold VoiceAgent.button. rewrite Ec, I. cbn [negb].
  unfold VoiceAgent.startConversation. rewrite G. cbn.
  unfold EventLoop.inFlight. cbn. by rewrite map_app.
Qed.

Lemma microphone_request_not_guarded_witness :
  let c := fst (VoiceAgent.steps Scenario.props (VoiceAgent.init Scenario.disconnected)
                  [ VoiceAgent.click_start; VoiceAgent.click_start ]) in
  EventLoop.inFlight (fst (VoiceAgent.step Scenario.props c VoiceAgent.click_start))
  = [ VoiceAgent.getUserMedia_audio; VoiceAgent.getUserMedia_audio;
      VoiceAgent.getUserMedia_audio ].
Proof.
  intros c.
  apply (microphone_request_not_guarded Scenario.props Scenario.disconnected c).
  - apply reachable_steps, VoiceAgent.reachable_init.
  - reflexivity.
  - reflexivity.
  - reflexivity.
Defined.

(** ** The authentication gate *)

Lemma shell_spawn_sync (c : Shell.Config) h acts :
  advance h = (acts, None) →
  EventLoop.spawn Shell.apply c h
  = ({| EventLoop.state := foldl Shell.apply (EventLoop.state c) acts;
        EventLoop.pending := EventLoop.pending c |},
     map EventLoop.performed acts).
Proof. intros H. unfold EventLoop.spawn. by rewrite H. Qed.

(** What an authentication event does, from any state of the page. *)
Lemma step_auth_event (c : Shell.Config) i session :
  Shell.sessionOf i = Some session →
  let r := Shell.step c i in
  Shell.user (EventLoop.state (fst r)) = Shell.userOf session
  ∧ Shell.agents (EventLoop.state (fst r)) = Shell.agents (EventLoop.state c)
  ∧ Shell.navigations (snd r)
    = match session with Some _ => [] | None => [js "/auth"] end
  ∧ EventLoop.issuedRequests (snd r)
    = (if decide (Shell.userOf session = Shell.user (EventLoop.state c)) then []
       else match session with
            | Some _ => [Supabase.select_all_order_created_at_ascending]
            | None => []
            end)
  ∧ EventLoop.inFlight (fst r)
    = EventLoop.inFlight c ++ EventLoop.issuedRequests (snd r).
Proof.
  intros Hi r. subst r. destruct c as [s pend].
  destruct i as [ss|ss| | | |]; try done; injection Hi as ->;
    cbn [Shell.step EventLoop.state];
    unfold Shell.commit, Shell.onGetSession, Shell.onAuthStateChange;
    destruct session as [[u]|]; cbn -[decide];
    case_decide as D; cbn -[decide]; unfold EventLoop.inFlight; cbn;
    rewrite ?map_app, ?app_nil_r; try done.
  all: case_decide as D'; try done; by rewrite D' in D.
Qed.

Lemma navigations_app l1 l2 :
  Shell.navigations (l1 ++ l2) = Shell.navigations l1 ++ Shell.navigations l2.
Proof. unfold Shell.navigations. apply omap_app. Qed.

Lemma shell_issuedRequests_app (l1 l2 : list Shell.Output) :
  EventLoop.issuedRequests (l1 ++ l2)
  = EventLoop.issuedRequests l1 ++ EventLoop.issuedRequests l2.
Proof. unfold EventLoop.issuedRequests. apply omap_app. Qed.

(** The inputs of the page itself, as long as none has carried a session. *)
Lemma steps_without_session l :
  Forall (λ i, ∀ session, Shell.sessionOf i ≠ Some (Some session)) l →
  let r := Shell.steps Shell.init l in
  EventLoop.issuedRequests (snd r) = []
  ∧ EventLoop.inFlight (fst r) = []
  ∧ Shell.user (EventLoop.state (fst r)) = None
  ∧ Shell.agents (EventLoop.state (fst r)) = []
  ∧ Shell.navigations (snd r)
    = replicate (length (filter (λ i, is_Some (Shell.sessionOf i)) l)) (js "/auth").
Proof.
  intros H.
  assert (∀ c : Shell.Config,
    EventLoop.pending c = [] →
    Shell.user (EventLoop.state c) = None →
    let r := Shell.steps c l in
    EventLoop.issuedRequests (snd r) = []
    ∧ EventLoop.inFlight (fst r) = []
    ∧ Shell.user (EventLoop.state (fst r)) = None
    ∧ Shell.agents (EventLoop.state (fst r)) = Shell.agents (EventLoop.state c)
    ∧ Shell.navigations (snd r)
      = replicate (length (filter (λ i, is_Some (Shell.sessionOf i)) l)) (js "/auth"))
    as G; [|by apply G].
  induction H as [|i l Hi Hl IH]; intros c Hp Hu.
  - cbn. unfold EventLoop.inFlight. by rewrite Hp.
  - cbn [Shell.steps fst snd].
    assert (EventLoop.pending (fst (Shell.step c i)) = []
            ∧ Shell.user (EventLoop.state (fst (Shell.step c i))) = None
            ∧ Shell.agents (EventLoop.state (fst (Shell.step c i)))
              = Shell.agents (EventLoop.state c)
            ∧ EventLoop.issuedRequests (snd (Shell.step c i)) = []
            ∧ Shell.navigations (snd (Shell.step c i))
              = (if decide (is_Some (Shell.sessionOf i)) then [js "/auth"] else []))
      as (Hp1 & Hu1 & Ha1 & Hr1 & Hn1).
    { destruct (Shell.sessionOf i) as [[session|]|] eqn:Es; [by destruct (Hi session)|..].
      - destruct (step_auth_event c i None Es) as (E1 & E2 & E3 & E4 & E5).
        rewrite Hu in E4. cbn in E4. rewrite E4 in E5. unfold EventLoop.inFlight in E5.
        rewrite Hp in E5. apply fmap_nil_inv in E5.
        rewrite decide_True by by eexists. done.
      - rewrite decide_False by by intros [? [=]].
        destruct c as [s pend]. cbn in Hp, Hu. subst pend.
        destruct i as [ss|ss| | | |n r]; try done; cbn [Shell.step EventLoop.state];
          unfold Shell.view; destruct (Shell.loading s); try done;
          try (by cbn; rewrite ?Hu).
        + case_bool_decide; [|done]. unfold Shell.commit. cbn. by rewrite ?Hu.
        + destruct (Shell.showConfig s); [|done]. by cbn; rewrite ?Hu.
        + unfold EventLoop.settle, Shell.commit. cbn. by rewrite decide_True.
        + unfold EventLoop.settle, Shell.commit. cbn. by rewrite decide_True. }
    specialize (IH _ Hp1 Hu1). cbn zeta in IH. destruct IH as (I1 & I2 & I3 & I4 & I5).
    rewrite shell_issuedRequests_app, navigations_app, Hr1, I1, I2, I3, I4, Ha1, Hn1, I5.
    rewrite filter_cons. repeat split; try done.
    by case_decide.
Qed.

Lemma steps_same_user u l (c : Shell.Config) :
  Forall (λ i, Shell.sessionOf i = Some (Some {| SupabaseAuth.user := u |})) l →
  Shell.user (EventLoop.state c) = Some u →
  EventLoop.issuedRequests (snd (Shell.steps c l)) = []
  ∧ EventLoop.inFlight (fst (Shell.steps c l)) = EventLoop.inFlight c
  ∧ Shell.navigations (snd (Shell.steps c l)) = []
  ∧ Shell.user (EventLoop.state (fst (Shell.steps c l))) = Some u.
Proof.
  intros H. revert c. induction H as [|i l Hi Hl IH]; intros c Hu; [done|].
  cbn [Shell.steps fst snd].
  destruct (step_auth_event c i _ Hi) as (E1 & _ & E3 & E4 & E5).
  cbn in E1, E4. rewrite Hu in E4. rewrite decide_True in E4 by done.
  rewrite E4, app_nil_r in E5.
  destruct (IH _ E1) as (I1 & I2 & I3 & I4).
  by rewrite shell_issuedRequests_app, navigations_app, E3, E4, I1, I2, I3, I4, E5.
Qed.

(** One listing per user object.  The effect that lists the registry
    depends on the [user] cell: an authentication event lists the registry
    exactly when the user object it carries is not the one the page holds.
    So any number of events that carry one and the same user object list
    the registry once, at the first of them, and never navigate away. *)
Theorem one_listing_per_user_object u l :
  l ≠ [] →
  Forall (λ i, Shell.sessionOf i = Some (Some {| SupabaseAuth.user := u |})) l →
  let r := Shell.steps Shell.init l in
  EventLoop.issuedRequests (snd r) = [Supabase.select_all_order_created_at_ascending]
  ∧ EventLoop.inFlight (fst r) = [Supabase.select_all_order_created_at_ascending]
  ∧ Shell.navigations (snd r) = []
  ∧ Shell.user (EventLoop.state (fst r)) = Some u
  ∧ (∀ (c : Shell.Config) i session,
       Shell.sessionOf i = Some (Some session) →
       (EventLoop.issuedRequests (snd (Shell.step c i))
          = [Supabase.select_all_order_created_at_ascending]
        ↔ Shell.user (EventLoop.state c) ≠ Some (SupabaseAuth.user session))).
Proof.
  intros Hne H r. subst r.
  assert (∀ (c : Shell.Config) i session,
       Shell.sessionOf i = Some (Some session) →
       (EventLoop.issuedRequests (snd (Shell.step c i))
          = [Supabase.select_all_order_created_at_ascending]
        ↔ Shell.user (EventLoop.state c) ≠ Some (SupabaseAuth.user session))) as Step.
  { intros c i session Hi.
    destruct (step_auth_event c i _ Hi) as (_ & _ & _ & E4 & _). rewrite E4.
    change (Shell.userOf (Some session)) with (Some (SupabaseAuth.user session)).
    destruct (decide (Some (SupabaseAuth.user session) = Shell.user (EventLoop.state c)))
      as [D|D]; (split; [intros X E|intros D']); done. }
  destruct H as [|i l Hi Hl]; [done|]. cbn [Shell.steps fst snd].
  destruct (step_auth_event Shell.init i _ Hi) as (E1 & _ & E3 & E4 & E5).
  cbn in E1, E4, E5. rewrite E4 in E5.
  destruct (steps_same_user u l _ Hl E1) as (I1 & I2 & I3 & I4).
  by rewrite shell_issuedRequests_app, navigations_app, E3, E4, I1, I2, I3, I4, E5.
Qed.

Lemma one_listing_per_user_object_witness :
  let u := {| SupabaseAuth.ref := 1; SupabaseAuth.email := Some (js "a@b.c") |} in
  let s := Some {| SupabaseAuth.user := u |} in
  EventLoop.issuedRequests
    (snd (Shell.steps Shell.init
            [ Shell.authStateChange s; Shell.getSession_resolved s;
              Shell.authStateChange s ]))
  = [Supabase.select_all_order_created_at_ascending].
Proof.
  intros u s.
  apply (one_listing_per_user_object u
           [ Shell.authStateChange s; Shell.getSession_resolved s;
             Shell.authStateChange s ]); [done|].
  by repeat constructor.
Defined.

(** The handlers suspended in the page are listings. *)
Lemma shell_step_pending (c : Shell.Config) i :
  Forall (λ e, ∀ r, snd e r = Shell.mapActions Shell.page (Index.afterSelect r))
    (EventLoop.pending c) →
  Forall (λ e, ∀ r, snd e r = Shell.mapActions Shell.page (Index.afterSelect r))
    (EventLoop.pending (fst (Shell.step c i)))
  ∧ Shell.loading (EventLoop.state (fst (Shell.step c i)))
    = match i with
      | Shell.getSession_resolved _ => false
      | _ => Shell.loading (EventLoop.state c)
      end.
Proof.
  intros K. destruct c as [s pend]. cbn in K.
  destruct i as [ss|ss| | | |n r]; cbn [Shell.step EventLoop.state].
  - unfold Shell.commit, Shell.onGetSession.
    destruct ss as [[u]|]; cbn -[decide]; case_decide; cbn; split; try done.
    apply Forall_app. split; [done|]. by apply Forall_singleton.
  - unfold Shell.commit, Shell.onAuthStateChange.
    destruct ss as [[u]|]; cbn -[decide]; case_decide; cbn; split; try done.
    apply Forall_app. split; [done|]. by apply Forall_singleton.
  - unfold Shell.view. destruct (Shell.loading s) eqn:L; cbn; rewrite ?L; by split.
  - unfold Shell.view. destruct (Shell.loading s) eqn:L; [cbn; rewrite ?L; by split|].
    case_bool_decide; cbn; rewrite ?L; by split.
  - unfold Shell.view. destruct (Shell.loading s) eqn:L; [cbn; rewrite ?L; by split|].
    destruct (Shell.showConfig s); cbn; rewrite ?L; by split.
  - unfold EventLoop.settle. cbn [EventLoop.pending EventLoop.state].
    destruct (pend !! n) as [[q k]|] eqn:E.
    + pose proof (Forall_lookup_1 _ _ _ _ K E) as Kq. cbn in Kq.
      pose proof (Forall_delete _ _ n K) as F.
      cbn [snd]. rewrite Kq. unfold Index.afterSelect, Shell.commit.
      destruct (Supabase.error r); [|destruct (Supabase.data r)]; cbn -[decide];
        rewrite decide_True by done; by split.
    + unfold Shell.commit. cbn -[decide]. rewrite decide_True by done. by split.
Qed.

(** The loading line stays until [getSession] has answered, and never
    comes back.  A session that arrives through [onAuthStateChange] sets
    the user and lists the registry, but the page goes on showing
    "Loading..." until the promise of [getSession] resolves. *)
Theorem loading_until_getSession l :
  Shell.view (EventLoop.state (fst (Shell.steps Shell.init l))) = Shell.Loading
  ↔ Forall (λ i, ∀ session, i ≠ Shell.getSession_resolved session) l.
Proof.
  assert (∀ c : Shell.Config,
    Forall (λ e, ∀ r, snd e r = Shell.mapActions Shell.page (Index.afterSelect r))
      (EventLoop.pending c) →
    (Shell.loading (EventLoop.state (fst (Shell.steps c l))) = true
     ↔ Shell.loading (EventLoop.state c) = true
       ∧ Forall (λ i, ∀ session, i ≠ Shell.getSession_resolved session) l)) as G.
  { induction l as [|i l IH]; intros c K.
    - cbn. split; [by split|by intros []].
    - cbn [Shell.steps fst]. destruct (shell_step_pending c i K) as [K1 L1].
      rewrite (IH _ K1), L1, Forall_cons. destruct i; try (by intuition).
      split; [by intros [[=] _]|]. intros (_ & H & _). by destruct (H session). }
  unfold Shell.view.
  destruct (Shell.loading (EventLoop.state (fst (Shell.steps Shell.init l)))) eqn:E.
  - split; [intros _|done]. apply (G Shell.init); [by constructor|done].
  - split; [done|]. intros H.
    assert (Shell.loading (EventLoop.state (fst (Shell.steps Shell.init l))) = true) as T
      by (apply (G Shell.init); [by constructor|done]).
    congruence.
Qed.

Lemma loading_until_getSession_witness :
  let u := {| SupabaseAuth.ref := 1; SupabaseAuth.email := Some (js "a@b.c") |} in
  let r := Shell.steps Shell.init
             [ Shell.authStateChange (Some {| SupabaseAuth.user := u |});
               Shell.settle 0 Scenario.listed ] in
  Shell.agents (EventLoop.state (fst r)) = [Scenario.agent1]
  ∧ Shell.view (EventLoop.state (fst r)) = Shell.Loading.
Proof.
  intros u r. split; [reflexivity|].
  apply (loading_until_getSession
           [ Shell.authStateChange (Some {| SupabaseAuth.user := u |});
             Shell.settle 0 Scenario.listed ]).
  by repeat constructor.
Defined.

Lemma steps_loading l (c : Shell.Config) :
  Forall (λ e, ∀ r, snd e r = Shell.mapActions Shell.page (Index.afterSelect r))
    (EventLoop.pending c) →
  Exists (λ i, ∃ session, i = Shell.getSession_resolved session) l →
  Shell.loading (EventLoop.state (fst (Shell.steps c l))) = false.
Proof.
  revert c. induction l as [|i l IH]; intros c K H; [by apply Exists_nil in H|].
  cbn [Shell.steps fst]. destruct (shell_step_pending c i K) as [K1 L1].
  apply Exists_cons in H as [[session ->]|H]; [|by apply IH].
  clear IH. revert K1 L1. generalize (fst (Shell.step c (Shell.getSession_resolved session))).
  clear. induction l as [|j l IH]; intros c K L; [done|].
  cbn [Shell.steps fst]. destruct (shell_step_pending c j K) as [K1 L1].
  apply IH; [done|]. rewrite L1. by destruct j.
Qed.

(** The gate covers the page's own code and not the panel.  Over the
    inputs of the page itself (the two authentication callbacks, the
    settings, configure and done clicks, the answers to its listings), as
    long as no authentication event has carried a session the page asks
    nothing of the store: no request is issued or in flight, no user is
    set, the registry is empty, and each authentication event navigates to
    ["/auth"].  The panel is mounted on [showConfig] alone: once
    [getSession] has answered, the page is rendered without a user, and a
    click on the settings button opens the panel all the same. *)
Theorem page_lists_nothing_without_session l :
  Forall (λ i, ∀ session, Shell.sessionOf i ≠ Some (Some session)) l →
  let r := Shell.steps Shell.init l in
  EventLoop.issuedRequests (snd r) = []
  ∧ EventLoop.inFlight (fst r) = []
  ∧ Shell.user (EventLoop.state (fst r)) = None
  ∧ Shell.agents (EventLoop.state (fst r)) = []
  ∧ Shell.navigations (snd r)
    = replicate (length (filter (λ i, is_Some (Shell.sessionOf i)) l)) (js "/auth")
  ∧ (Exists (λ i, ∃ session, i = Shell.getSession_resolved session) l →
     Shell.view (EventLoop.state (fst r))
     = Shell.Rendered None [] true (Shell.showConfig (EventLoop.state (fst r)))
     ∧ Shell.view (EventLoop.state (fst (Shell.step (fst r) Shell.click_settings)))
       = Shell.Rendered None [] true true).
Proof.
  intros H r. subst r.
  destruct (steps_without_session l H) as (H1 & H2 & H3 & H4 & H5).
  repeat (split; [done|]).
  intros E.
  assert (Shell.loading (EventLoop.state (fst (Shell.steps Shell.init l))) = false) as L
    by (apply steps_loading; [by constructor|done]).
  destruct (Shell.steps Shell.init l) as [[s pend] out].
  cbn [fst snd EventLoop.state] in *.
  cbn [Shell.step EventLoop.state]. unfold Shell.view at 1 2. rewrite L, H3, H4.
  split; [done|]. cbn. unfold Shell.view. cbn. by rewrite L, H3, H4.
Qed.

Lemma page_lists_nothing_without_session_witness :
  let r := Shell.steps Shell.init
             [ Shell.authStateChange None; Shell.click_settings;
               Shell.getSession_resolved None ] in
  EventLoop.issuedRequests (snd r) = []
  ∧ Shell.navigations (snd r) = [js "/auth"; js "/auth"]
  ∧ Shell.view (EventLoop.state (fst (Shell.step (fst r) Shell.click_settings)))
    = Shell.Rendered None [] true true.
Proof.
  intros r.
  destruct (page_lists_nothing_without_session
              [ Shell.authStateChange None; Shell.click_settings;
                Shell.getSession_resolved None ])
    as (H1 & _ & _ & _ & H5 & H6).
  - repeat constructor; by intros session.
  - split; [exact H1|]. split; [exact H5|]. apply H6.
    apply Exists_cons_tl, Exists_cons_tl, Exists_cons_hd. by eexists.
Defined.

(** ** The bounds, evaluated *)

(** A name of 100 units is accepted although the message of the bound reads
    "less than 100 characters"; one of 101 units is not, unless the units
    in excess are white space around it. *)
Example name_of_100_units_sent :
  requests
    (run Scenario.accepting
       (AgentConfig.addOrUpdateAgent done
          {| AgentConfig.newAgentName := replicate 100 97;
             AgentConfig.newAgentId := js "abc";
             AgentConfig.newAgentBio := [];
             AgentConfig.newAgentLlm := [];
             AgentConfig.editingAgentId := None |}))
  = [Supabase.insert
       {| Supabase.v_name := replicate 100 97; Supabase.v_agent_id := js "abc";
          Supabase.v_bio := None; Supabase.v_llm := None |}].
Proof. by vm_compute. Qed.

Example name_of_101_units_refused :
  Spec.panelToasts
    (run Scenario.accepting
       (AgentConfig.addOrUpdateAgent done
          {| AgentConfig.newAgentName := replicate 101 97;
             AgentConfig.newAgentId := js "abc";
             AgentConfig.newAgentBio := [];
             AgentConfig.newAgentLlm := [];
             AgentConfig.editingAgentId := None |}))
  = [Spec.invalidInput (js "Agent name must be less than 100 characters")].
Proof. by vm_compute. Qed.

Example name_of_100_units_padded_sent :
  requests
    (run Scenario.accepting
       (AgentConfig.addOrUpdateAgent done
          {| AgentConfig.newAgentName := 32 :: replicate 100 97 ++ [9; 160];
             AgentConfig.newAgentId := js "abc";
             AgentConfig.newAgentBio := js "   ";
             AgentConfig.newAgentLlm := [];
             AgentConfig.editingAgentId := None |}))
  = [Supabase.insert
       {| Supabase.v_name := replicate 100 97; Supabase.v_agent_id := js "abc";
          Supabase.v_bio := None; Supabase.v_llm := None |}].
Proof. by vm_compute. Qed.
